(** * video-audio-sync-studio: the core of the sync editor, embedded in Rocq

    The two source files, [video_audio_sync_pro.py] and
    [video_audio_sync_app_v2.py], share the same signal-processing core
    ([AudioSyncWorker.cross_correlation_sync] and
    [VideoProcessWorker.apply_offset_to_audio]) and differ in how the
    transcoding command is built: the "pro" edition has an [ExportSettings]
    profile and [build_ffmpeg_command]; the "v2" edition writes the two
    commands out literally inside [VideoProcessWorker.run].

    Numbers.  Sample values and the quantities the estimator computes from
    them are numpy floats in the source; they are modelled as real numbers
    ([R]), that is with exact arithmetic and no rounding, so what is proved
    of the estimator is what does not hang on how a sum or a quotient is
    rounded: which buffer is the template, the range and the sign of the
    offset, the clamp, the errors raised.  The offset handed to the export
    is a Python float and is modelled as one: a binary64 number
    ([F64.float]), with the product [offset * sr] rounded as the hardware
    rounds it before [int] drops the fraction.  Lengths and indices are
    [nat], sample rates and the search bound are Python ints ([Z]). *)

From Stdlib Require Import List String Ascii Bool Arith ZArith Lia.
From Stdlib Require Import QArith Qround Qabs Qpower.
From Stdlib Require Import Floats.SpecFloat.
From Stdlib Require Import Reals Lra.
From Stdlib Require Import DecimalString.
From Equations Require Import Equations.
Import ListNotations.

Local Open Scope string_scope.
Local Open Scope list_scope.

(** ** Python sequence slicing *)

Module Py.

(** [a[:k]]: a negative [k] counts from the end, and both ends clamp. *)
Definition slice_to {A : Type} (a : list A) (k : Z) : list A :=
  if (k <? 0)%Z
  then firstn (Z.to_nat (Z.of_nat (List.length a) + k)) a
  else firstn (Z.to_nat k) a.

(** [a[k:]]: a negative [k] keeps the last [-k] elements. *)
Definition slice_from {A : Type} (a : list A) (k : Z) : list A :=
  if (k <? 0)%Z
  then skipn (Z.to_nat (Z.of_nat (List.length a) + k)) a
  else skipn (Z.to_nat k) a.

(** [str(n)] for a Python int. *)
Definition str (n : Z) : string := NilZero.string_of_int (Z.to_int n).

(** [s.startswith(p)]. *)
Fixpoint startswith (s p : string) {struct p} : bool :=
  match p with
  | EmptyString => true
  | String c p' =>
      match s with
      | EmptyString => false
      | String d s' => Ascii.eqb d c && startswith s' p'
      end
  end.

(** [sep.join(parts)]. *)
Definition join (sep : string) (parts : list string) : string :=
  String.concat sep parts.

End Py.

(** ** Exceptions *)

(** The Python exceptions the core raises or lets through; [str_exn] is
    [str(e)]. *)
Inductive exn : Type :=
| Exception (msg : string)
| ValueError (msg : string)
| FileNotFoundError (msg : string)
| OSError (msg : string)
| OverflowError (msg : string).

Definition str_exn (e : exn) : string :=
  match e with
  | Exception m | ValueError m | FileNotFoundError m | OSError m
  | OverflowError m => m
  end.

Inductive result (A : Type) : Type :=
| Ok (a : A)
| Raise (e : exn).
Arguments Ok {A} a.
Arguments Raise {A} e.

Definition is_ok {A : Type} (r : result A) : bool :=
  match r with Ok _ => true | Raise _ => false end.

Definition bind_result {A B : Type} (r : result A) (k : A -> result B) : result B :=
  match r with
  | Ok a => k a
  | Raise e => Raise e
  end.

Declare Scope result_scope.
Delimit Scope result_scope with result.
Notation "x <- r ;; k" := (bind_result r (fun x => k))
  (at level 61, r at next level, right associativity) : result_scope.

(** ** numpy on one-dimensional float arrays

    Over the reals: each operation is the exact one that numpy's float
    operation rounds. *)

Module Np.
Local Open Scope R_scope.

Definition abs (a : list R) : list R := map Rabs a.

(** [np.max]: no identity, so an empty array raises. *)
Definition max (a : list R) : result R :=
  match a with
  | [] => Raise (ValueError
      "zero-size array to reduction operation maximum which has no identity")
  | x :: rest => Ok (fold_left Rmax rest x)
  end.

Definition sum (a : list R) : R := fold_right Rplus 0 a.

(** [a / d] and [a ** 2], element by element. *)
Definition div (a : list R) (d : R) : list R := map (fun x => x / d) a.
Definition sq (a : list R) : list R := map (fun x => x * x) a.

(** [np.zeros(n)]. *)
Definition zeros (n : Z) : result (list R) :=
  if (n <? 0)%Z then Raise (ValueError "negative dimensions are not allowed")
  else Ok (repeat 0 (Z.to_nat n)).

(** [np.argmax]: the first index of the largest element. *)
Fixpoint argmax_from (best_i : nat) (best : R) (i : nat) (a : list R) : nat :=
  match a with
  | [] => best_i
  | x :: rest =>
      if Rlt_dec best x then argmax_from i x (S i) rest
      else argmax_from best_i best (S i) rest
  end.

Definition argmax (a : list R) : result nat :=
  match a with
  | [] => Raise (ValueError "attempt to get argmax of an empty sequence")
  | x :: rest => Ok (argmax_from 0 x 1 rest)
  end.

(** The inner product of two arrays, over the length of the shorter. *)
Fixpoint dot (a b : list R) : R :=
  match a, b with
  | x :: a', y :: b' => x * y + dot a' b'
  | _, _ => 0
  end.

(** All windows of [a] under [b]: entry [lag] is the sum of
    [a[lag + i] * b[i]]. Needs [length b <= length a]. *)
Definition slide (a b : list R) : list R :=
  map (fun lag => dot (skipn lag a) b)
      (seq 0 (List.length a - List.length b + 1)).

(** [scipy.signal.correlate(in1, in2, mode='valid')] on real arrays: the
    exact sliding sums, which scipy returns rounded. When [in2] is the
    longer one scipy swaps the operands, which reverses the lags; with an
    empty operand the result is empty. *)
Definition correlate_valid (in1 in2 : list R) : list R :=
  match in1, in2 with
  | [], _ | _, [] => []
  | _, _ =>
      if (List.length in2 <=? List.length in1)%nat then slide in1 in2
      else rev (slide in2 in1)
  end.

End Np.

(** ** OffsetEstimator *)

Record SyncResult : Type := mkSyncResult {
  offset_seconds : R;
  confidence : R;
  correlation_peak : R;
  sample_rate : Z;
  method : string
}.

(** The constant [1e-8]. *)
Definition eps : R := (/ 100000000)%R.

Section Estimator.
Local Open Scope R_scope.
Local Open Scope result_scope.

(** [self.max_offset], the search bound in seconds (an int spin box). *)
Variable max_offset : Z.

(** The branch of [cross_correlation_sync] that picks template and search
    signal out of the two normalised buffers; [reverse] tells that the
    template is the external audio. *)
Definition choose_template (vid_audio : list R) (vid_sr : Z)
    (ext_audio : list R) (ext_sr : Z) : list R * list R * bool :=
  let max_offset_samples := (max_offset * vid_sr)%Z in
  if (List.length vid_audio <? List.length ext_audio)%nat then
    let template :=
      Py.slice_to vid_audio
        (Z.min (Z.of_nat (List.length vid_audio)) (30 * vid_sr)) in
    let search_signal :=
      Py.slice_to ext_audio
        (Z.min (Z.of_nat (List.length ext_audio))
               (Z.of_nat (List.length template) + max_offset_samples)) in
    (template, search_signal, false)
  else
    let template :=
      Py.slice_to ext_audio
        (Z.min (Z.of_nat (List.length ext_audio)) (30 * ext_sr)) in
    let search_signal :=
      Py.slice_to vid_audio
        (Z.min (Z.of_nat (List.length vid_audio))
               (Z.of_nat (List.length template) + max_offset_samples)) in
    (template, search_signal, true).

(** [AudioSyncWorker.cross_correlation_sync], the same in both editions,
    with its arithmetic over the reals. *)
Definition cross_correlation_sync (video_audio external_audio : list R * Z)
    : result SyncResult :=
  let '(vid_audio, vid_sr) := video_audio in
  let '(ext_audio, ext_sr) := external_audio in
  vid_peak <- Np.max (Np.abs vid_audio) ;;
  let vid_audio := Np.div vid_audio (vid_peak + eps) in
  ext_peak <- Np.max (Np.abs ext_audio) ;;
  let ext_audio := Np.div ext_audio (ext_peak + eps) in
  let '(template, search_signal, reverse) :=
    choose_template vid_audio vid_sr ext_audio ext_sr in
  let correlation := Np.correlate_valid search_signal template in
  peak_index <- Np.argmax correlation ;;
  let peak_value := nth peak_index correlation 0 in
  let confidence :=
    peak_value /
    (sqrt (Np.sum (Np.sq template) * Np.sum (Np.sq search_signal)) + eps) in
  let offset_seconds :=
    if reverse then INR peak_index / IZR vid_sr
    else - INR peak_index / IZR ext_sr in
  Ok {| offset_seconds := offset_seconds;
        confidence := Rmin confidence 1;
        correlation_peak := peak_value;
        sample_rate := vid_sr;
        method := "cross_correlation" |}.

End Estimator.

(** ** OffsetApplier *)

(** Python floats: binary64, every operation rounded to nearest, ties to
    even. *)
Module F64.

Definition prec : Z := 53.
Definition emax : Z := 1024.

Definition float : Type := spec_float.

Definition zero : float := S754_zero false.

(** [float(n)] for a Python int, as in [x * n]. *)
Definition of_int (n : Z) : float := binary_normalize prec emax n 0 false.

Definition mul (x y : float) : float := SFmul prec emax x y.
Definition add (x y : float) : float := SFadd prec emax x y.
Definition div (x y : float) : float := SFdiv prec emax x y.
Definition abs (x : float) : float := SFabs x.
Definition opp (x : float) : float := SFopp x.

(** [x < y]; false as soon as one side is not a number. *)
Definition ltb (x y : float) : bool := SFltb x y.

(** The float nearest to a fraction of two integers below [2^53]: what the
    decimal literal [0.7] or the spin box at [0.700] stands for. *)
Definition of_Q (q : Q) : float :=
  div (of_int (Qnum q)) (of_int (Z.pos (Qden q))).

(** The number a finite float stands for. *)
Definition to_Q (x : float) : Q :=
  match x with
  | S754_finite s m e =>
      ((if s then - inject_Z (Z.pos m) else inject_Z (Z.pos m))
       * Qpower (2 # 1) e)%Q
  | _ => 0%Q
  end.

End F64.

Module Applier.
Local Open Scope Q_scope.
Local Open Scope result_scope.

(** [int(x)] on a float: the fraction is dropped, towards zero; infinities
    and not-a-number raise. *)
Definition int (x : F64.float) : result Z :=
  match x with
  | S754_zero _ => Ok 0%Z
  | S754_finite s m e =>
      let a := Z.shiftl (Z.pos m) e in
      Ok (if s then (- a)%Z else a)
  | S754_infinity _ =>
      Raise (OverflowError "cannot convert float infinity to integer")
  | S754_nan => Raise (ValueError "cannot convert float NaN to integer")
  end.

(** Python's [round(x)] of an exact number: to the nearest integer, a tie to
    the even one. *)
Definition round (x : Q) : Z :=
  let f := Qfloor x in
  match Qcompare (x - inject_Z f)%Q (1 # 2)%Q with
  | Lt => f
  | Gt => (f + 1)%Z
  | Eq => if Z.even f then f else (f + 1)%Z
  end.

(** What [apply_offset_to_audio] does to the loaded samples, between
    [librosa.load] and [sf.write]. *)
Definition shift_samples (offset : F64.float) (audio : list R) (sr : Z)
    : result (list R) :=
  if F64.ltb F64.zero offset then
    silence_samples <- int (F64.mul offset (F64.of_int sr)) ;;
    silence <- Np.zeros silence_samples ;;
    Ok (silence ++ audio)
  else if F64.ltb offset F64.zero then
    trim_samples <- int (F64.mul (F64.abs offset) (F64.of_int sr)) ;;
    Ok (Py.slice_from audio trim_samples)
  else Ok audio.

End Applier.

(** ** ExportPlanner *)

(** [ExportSettings] of the pro edition, with its defaults. *)
Record ExportSettings : Type := mkExportSettings {
  format : string;
  video_codec : string;
  audio_codec : string;
  resolution : string;
  video_bitrate : string;
  audio_bitrate : string;
  preset : string;
  crf : Z
}.

Definition default_settings : ExportSettings :=
  {| format := "mp4"; video_codec := "libx264"; audio_codec := "aac";
     resolution := "original"; video_bitrate := "8M";
     audio_bitrate := "192k"; preset := "medium"; crf := 23 |}.

(** The audio graph both editions pass to [-filter_complex]. *)
Definition audio_filter : string :=
  "[0:a]volume=0.3[original];[1:a]volume=1.0[new];[original][new]amix=inputs=2:duration=shortest".


(** ** ProcessOrchestrator: the Export flow *)

(** What a worker thread sends to the window. *)
Inductive Signal : Type :=
| Progress (value : Z) (label : string)
| Finished (path : string)
| Error (msg : string).

(** The part of the outside world the flow changes: the scratch files that
    exist, and the signals emitted so far, oldest first. *)
Record World : Type := mkWorld {
  scratch : list string;
  signals : list Signal
}.

(** The transcoding tool once started, for a tool that ends: the text of its
    error stream that nobody has read yet (all it writes until it exits,
    decoded), how many more times [poll()] answers [None] after the stream is
    at its end, and the exit code. *)
Record Process : Type := mkProcess {
  stderr : string;
  polls_left : nat;
  returncode : Z
}.

(** How the collaborators answer in one run of the flow. *)
Record Env : Type := mkEnv {
  (** [tempfile.NamedTemporaryFile(suffix='.wav', delete=False)]: its name. *)
  named_temporary_file : result string;
  (** [librosa.load(self.audio_path, sr=22050, mono=True)]. *)
  librosa_load : result (list R * Z);
  (** [sf.write(output_path, audio, sr)]. *)
  sf_write : list R -> Z -> result unit;
  (** [subprocess.Popen(cmd, ...)]. *)
  popen : list string -> result Process;
  (** Whether [os.unlink] may remove a scratch file that exists. *)
  unlink_allowed : bool
}.

(** The fields of a [VideoProcessWorker] both editions have. *)
Record Worker : Type := mkWorker {
  video_path : string;
  audio_path : string;
  output_path : string;
  offset : F64.float;
  mute_original : bool
}.

(** Commands that change the world and may raise. *)
Definition M (A : Type) : Type := World -> result A * World.

Definition ret {A : Type} (a : A) : M A := fun w => (Ok a, w).

Definition raise {A : Type} (e : exn) : M A := fun w => (Raise e, w).

Definition bind {A B : Type} (m : M A) (k : A -> M B) : M B :=
  fun w =>
    match m w with
    | (Ok a, w') => k a w'
    | (Raise e, w') => (Raise e, w')
    end.

(** [try: m  except Exception as e: h e]. *)
Definition try_except {A : Type} (m : M A) (h : exn -> M A) : M A :=
  fun w =>
    match m w with
    | (Ok a, w') => (Ok a, w')
    | (Raise e, w') => h e w'
    end.

Definition lift {A : Type} (r : result A) : M A := fun w => (r, w).

Declare Scope flow_scope.
Delimit Scope flow_scope with flow.
Notation "x <- m ;; k" := (bind m (fun x => k))
  (at level 61, m at next level, right associativity) : flow_scope.
Notation "m ;; k" := (bind m (fun _ => k))
  (at level 61, right associativity) : flow_scope.

Definition emit (sg : Signal) : M unit :=
  fun w => (Ok tt, mkWorld (scratch w) (signals w ++ [sg])).

Definition create_scratch (env : Env) : M string :=
  fun w =>
    match named_temporary_file env with
    | Ok name => (Ok name, mkWorld (name :: scratch w) (signals w))
    | Raise e => (Raise e, w)
    end.

Definition remove (path : string) (files : list string) : list string :=
  filter (fun f => negb (String.eqb f path)) files.

(** [os.unlink(path)]. *)
Definition os_unlink (env : Env) (path : string) : M unit :=
  fun w =>
    if existsb (String.eqb path) (scratch w) then
      if unlink_allowed env
      then (Ok tt, mkWorld (remove path (scratch w)) (signals w))
      else (Raise (OSError "Permission denied"), w)
    else (Raise (FileNotFoundError "No such file or directory"), w).

(** The text layer of a pipe opened with [text=True,
    universal_newlines=True]: a carriage return, alone or followed by a line
    feed, reaches the reader as one line feed. *)
Fixpoint universal_newlines (s : string) : string :=
  match s with
  | EmptyString => EmptyString
  | String c rest =>
      if Ascii.eqb c "013"%char then
        String "010"%char
          match rest with
          | EmptyString => EmptyString
          | String c' rest' =>
              if Ascii.eqb c' "010"%char then universal_newlines rest'
              else universal_newlines rest
          end
      else String c (universal_newlines rest)
  end.

(** The tool seen through that layer. *)
Definition text_mode (p : Process) : Process :=
  mkProcess (universal_newlines (stderr p)) (polls_left p) (returncode p).

(** [subprocess.Popen(cmd, stdout=PIPE, stderr=PIPE, text=True,
    universal_newlines=True)]. *)
Definition subprocess_Popen (env : Env) (cmd : list string) : result Process :=
  bind_result (popen env cmd) (fun p => Ok (text_mode p)).

(** [process.stderr.readline()] on the text layer: up to and including the
    first newline; the empty string at the end of the stream. *)
Fixpoint readline (s : string) : string * string :=
  match s with
  | EmptyString => (EmptyString, EmptyString)
  | String c rest =>
      if Ascii.eqb c "010"%char then (String c EmptyString, rest)
      else let (line, rest') := readline rest in (String c line, rest')
  end.

Definition is_empty (s : string) : bool :=
  match s with EmptyString => true | String _ _ => false end.

Lemma readline_length (s : string) :
  (String.length (fst (readline s)) + String.length (snd (readline s))
   = String.length s)%nat.
Proof.
  induction s as [|c s IH]; simpl; [reflexivity|].
  destruct (Ascii.eqb c "010"%char); simpl; [reflexivity|].
  destruct (readline s) as [l r]; simpl in *. lia.
Qed.

Definition inspect {A : Type} (a : A) : {b : A | a = b} := exist _ a eq_refl.

(** The monitoring loop of [run]:
    [while True: output = readline(); if output == '' and poll() is not None:
    break; if output: progress.emit(...)]. *)
Equations? monitor (encoding : Signal) (p : Process) (w : World)
  : Process * World
  by wf (String.length (stderr p) + polls_left p)%nat lt :=
monitor encoding p w with inspect (readline (stderr p)) := {
  | exist _ (output, rest) E with inspect (is_empty output) := {
    | exist _ true Eo with inspect (polls_left p) := {
      | exist _ 0%nat _ => (mkProcess rest 0 (returncode p), w)
      | exist _ (S k) _ =>
          monitor encoding (mkProcess rest k (returncode p)) w };
    | exist _ false Eo =>
        monitor encoding (mkProcess rest (polls_left p) (returncode p))
          (mkWorld (scratch w) (signals w ++ [encoding])) } }.
Proof.
  - destruct output; [|discriminate].
    pose proof (readline_length (stderr p)) as H.
    rewrite E in H; simpl in *. lia.
  - pose proof (readline_length (stderr p)) as H.
    rewrite E in H; simpl in H.
    destruct output; [discriminate|]. simpl in *. lia.
Qed.

Section ExportFlow.
Local Open Scope flow_scope.

Variable env : Env.
Variable self : Worker.

(** [VideoProcessWorker.apply_offset_to_audio]. *)
Definition apply_offset_to_audio (output_path : string) : M unit :=
  try_except
    (loaded <- lift (librosa_load env) ;;
     let '(audio, sr) := loaded in
     audio <- lift (Applier.shift_samples (offset self) audio sr) ;;
     lift (sf_write env audio sr))
    (fun e =>
       raise (Exception
                (String.append "Failed to apply offset: " (str_exn e)))).

(** The edition's command for a scratch path, and its two progress signals. *)
Variable plan : string -> list string.
Variable merging : Signal.
Variable encoding : Signal.

(** [VideoProcessWorker.run]. *)
Definition export_flow : World -> World :=
  fun w =>
    snd (try_except
      (emit (Progress 10 "Preparing files...") ;;
       temp_audio_path <- create_scratch env ;;
       emit (Progress 30 "Applying audio offset...") ;;
       apply_offset_to_audio temp_audio_path ;;
       emit merging ;;
       let cmd := plan temp_audio_path in
       process <- lift (subprocess_Popen env cmd) ;;
       process <- (fun w => let (p, w') := monitor encoding process w in
                            (Ok p, w')) ;;
       let return_code := returncode process in
       try_except (os_unlink env temp_audio_path) (fun _ => ret tt) ;;
       (if negb (return_code =? 0)%Z then
          let stderr := stderr process in
          raise (Exception
                   (String.append "FFmpeg encoding failed: " stderr))
        else
          emit (Progress 100 "Export complete!") ;;
          emit (Finished (output_path self))))
      (fun e => emit (Error (str_exn e))) w).

End ExportFlow.

Module Pro.

(** [VideoProcessWorker.build_ffmpeg_command]; [mute_original = true] is the
    Replace policy, [false] is MixWithOriginal. *)
Definition build_ffmpeg_command (video_path temp_audio_path output_path : string)
    (mute_original : bool) (s : ExportSettings) : list string :=
  let cmd := ["ffmpeg"; "-i"; video_path; "-i"; temp_audio_path] in
  let video_filters :=
    if String.eqb (resolution s) "original" then []
    else [String.append "scale=" (resolution s)] in
  let cmd :=
    if mute_original then
      let cmd :=
        match video_filters with
        | _ :: _ => cmd ++ ["-vf"; Py.join "," video_filters]
        | [] => cmd ++ ["-c:v"; video_codec s]
        end in
      cmd ++ ["-c:a"; audio_codec s;
              "-b:v"; video_bitrate s;
              "-b:a"; audio_bitrate s;
              "-crf"; Py.str (crf s);
              "-preset"; preset s;
              "-map"; "0:v:0";
              "-map"; "1:a:0";
              "-shortest"]
    else
      let cmd :=
        match video_filters with
        | _ :: _ => cmd ++ ["-vf"; Py.join "," video_filters]
        | [] => cmd
        end in
      cmd ++ ["-filter_complex"; audio_filter;
              "-c:v"; video_codec s;
              "-c:a"; audio_codec s;
              "-b:v"; video_bitrate s;
              "-b:a"; audio_bitrate s;
              "-crf"; Py.str (crf s);
              "-preset"; preset s;
              "-map"; "0:v:0"] in
  cmd ++ ["-y"; output_path].

(** [VideoProcessWorker.run] of the pro edition. *)
Definition run (env : Env) (self : Worker) (s : ExportSettings) : World -> World :=
  export_flow env self
    (fun temp_audio_path =>
       build_ffmpeg_command (video_path self) temp_audio_path
         (output_path self) (mute_original self) s)
    (Progress 50 "Encoding video (this may take a while)...")
    (Progress 75 "Encoding video...").

End Pro.

Module V2.

(** The command literal of [VideoProcessWorker.run] in the v2 edition, which
    has no export profile. *)
Definition build_command (video_path temp_audio_path output_path : string)
    (mute_original : bool) : list string :=
  if mute_original then
    ["ffmpeg"; "-i"; video_path; "-i"; temp_audio_path;
     "-c:v"; "copy"; "-c:a"; "aac"; "-b:a"; "192k";
     "-map"; "0:v:0"; "-map"; "1:a:0"; "-shortest";
     "-y"; output_path]
  else
    ["ffmpeg"; "-i"; video_path; "-i"; temp_audio_path;
     "-filter_complex"; audio_filter;
     "-c:v"; "copy"; "-c:a"; "aac"; "-b:a"; "192k";
     "-map"; "0:v:0";
     "-y"; output_path].

(** [VideoProcessWorker.run] of the v2 edition. *)
Definition run (env : Env) (self : Worker) : World -> World :=
  export_flow env self
    (fun temp_audio_path =>
       build_command (video_path self) temp_audio_path
         (output_path self) (mute_original self))
    (Progress 60 "Merging video and audio (this may take a while)...")
    (Progress 80 "Encoding video...").

End V2.

(** *** Reading a command line *)

(** An option [k] with value [v]: two neighbouring arguments. *)
Fixpoint has_opt (k v : string) (cmd : list string) : bool :=
  match cmd with
  | a :: (b :: _) as rest => (String.eqb a k && String.eqb b v) || has_opt k v rest
  | _ => false
  end.

(** The option [k] is given at all, with whatever value. *)
Fixpoint has_key (k : string) (cmd : list string) : bool :=
  match cmd with
  | a :: (_ :: _) as rest => String.eqb a k || has_key k rest
  | _ => false
  end.

(** A [-vf] option whose filter chain starts with a scale filter. *)
Fixpoint has_scale_filter (cmd : list string) : bool :=
  match cmd with
  | a :: (b :: _) as rest =>
      (String.eqb a "-vf" && Py.startswith b "scale=") || has_scale_filter rest
  | _ => false
  end.

(** The video stream is copied, not re-encoded. *)
Definition video_stream_copy (cmd : list string) : bool :=
  has_opt "-c:v" "copy" cmd.


(** ** Notions the statements are written with *)

Section Notions.
Local Open Scope R_scope.

(** A buffer divided by its own peak amplitude plus [1e-8], as the first two
    statements of [cross_correlation_sync] do. *)
Definition normalised (a : list R) : list R :=
  match Np.max (Np.abs a) with
  | Ok peak => Np.div a (peak + eps)
  | Raise _ => []
  end.

(** Template, search signal and [reverse] for two raw buffers. *)
Definition parts (max_offset : Z) (video_audio external_audio : list R * Z)
    : list R * list R * bool :=
  choose_template max_offset (normalised (fst video_audio)) (snd video_audio)
    (normalised (fst external_audio)) (snd external_audio).

Definition template_of (max_offset : Z) (va ea : list R * Z) : list R :=
  fst (fst (parts max_offset va ea)).
Definition search_of (max_offset : Z) (va ea : list R * Z) : list R :=
  snd (fst (parts max_offset va ea)).
Definition reverse_of (max_offset : Z) (va ea : list R * Z) : bool :=
  snd (parts max_offset va ea).

(** The correlation array of the two raw buffers. *)
Definition correlation_of (max_offset : Z) (va ea : list R * Z) : list R :=
  Np.correlate_valid (search_of max_offset va ea) (template_of max_offset va ea).

(** The record [cross_correlation_sync] builds once the peak is known. *)
Definition result_at (max_offset : Z) (va ea : list R * Z) (peak_index : nat)
    : SyncResult :=
  let template := template_of max_offset va ea in
  let search_signal := search_of max_offset va ea in
  let peak_value := nth peak_index (correlation_of max_offset va ea) 0 in
  {| offset_seconds :=
       if reverse_of max_offset va ea then INR peak_index / IZR (snd va)
       else - INR peak_index / IZR (snd ea);
     confidence :=
       Rmin (peak_value /
             (sqrt (Np.sum (Np.sq template) * Np.sum (Np.sq search_signal))
              + eps)) 1;
     correlation_peak := peak_value;
     sample_rate := snd va;
     method := "cross_correlation" |}.

(** The spec's words for an input the estimator should refuse: an empty
    buffer, or one whose peak absolute amplitude is zero. *)
Definition silent (a : list R) : Prop := Np.max (Np.abs a) = Ok 0.
Definition degenerate (a : list R) : Prop := a = [] \/ silent a.

(** The squared distance of two arrays over the length of the shorter, and
    the energy of the part of [a] that has a partner in [b]. *)
Fixpoint sqdist (a b : list R) : R :=
  match a, b with
  | x :: a', y :: b' => (x - y) * (x - y) + sqdist a' b'
  | _, _ => 0
  end.

Fixpoint paired_energy (a b : list R) : R :=
  match a, b with
  | x :: a', _ :: b' => x * x + paired_energy a' b'
  | _, _ => 0
  end.

End Notions.

(** What [process.stderr.read()] returns once the monitoring loop is over. *)
Definition remaining_stderr (p : Process) : string :=
  stderr (fst (monitor (Progress 75 "Encoding video...") p (mkWorld [] []))).

(** The scratch files once [os.unlink] has been tried on [tmp]. *)
Definition after_unlink (env : Env) (w : World) (tmp : string) : list string :=
  if unlink_allowed env then remove tmp (tmp :: scratch w)
  else tmp :: scratch w.

(** *** Example runs and profiles *)

(** A run of the pro edition in which the tool starts, writes two lines to
    its error stream and exits with code 1. *)
Definition failing_tool : Process :=
  mkProcess
    (String.append "frame=    1 fps=0.0" (String "010"
      (String.append "Conversion failed!" (String "010" ""))))
    2 1.

Definition failing_encode : Env :=
  {| named_temporary_file := Ok "/tmp/tmpk3x9.wav";
     librosa_load := Ok ([0%R; 1%R], 22050%Z);
     sf_write := fun _ _ => Ok tt;
     popen := fun _ => Ok failing_tool;
     unlink_allowed := true |}.

(** A run in which the audio file cannot be decoded. *)
Definition failing_load : Env :=
  {| named_temporary_file := Ok "/tmp/tmpk3x9.wav";
     librosa_load := Raise (Exception "Format not recognised.");
     sf_write := fun _ _ => Ok tt;
     popen := fun _ => Ok (mkProcess "" 0 0);
     unlink_allowed := true |}.

(** A run in which the transcoding tool is not installed. *)
Definition missing_tool : Env :=
  {| named_temporary_file := Ok "/tmp/tmpk3x9.wav";
     librosa_load := Ok ([0%R; 1%R], 22050%Z);
     sf_write := fun _ _ => Ok tt;
     popen := fun _ =>
       Raise (FileNotFoundError "[Errno 2] No such file or directory: 'ffmpeg'");
     unlink_allowed := true |}.

Definition a_worker : Worker :=
  mkWorker "clip.mp4" "voice.wav" "clip_synced.mp4" (F64.of_Q (1 # 1000)) true.

Definition start : World := mkWorld [] [].

(** The default profile scaled to 1280x720. *)
Definition hd_720 : ExportSettings :=
  {| format := "mp4"; video_codec := "libx264"; audio_codec := "aac";
     resolution := "1280x720"; video_bitrate := "8M";
     audio_bitrate := "192k"; preset := "medium"; crf := 23 |}.

(** A profile that asks for the video stream to be copied. *)
Definition remux : ExportSettings :=
  {| format := "mkv"; video_codec := "copy"; audio_codec := "aac";
     resolution := "original"; video_bitrate := "8M";
     audio_bitrate := "192k"; preset := "medium"; crf := 23 |}.

(** ** AudioIngest and the Analyze flow *)

Module Analyze.

(** What an [AudioSyncWorker] sends to the window: its [finished] signal
    carries the result. *)
Inductive Signal : Type :=
| Progress (value : Z) (label : string)
| Finished (result : SyncResult)
| Error (msg : string).

Record World : Type := mkWorld {
  scratch : list string;
  signals : list Signal
}.

(** How the collaborators answer in one run of the flow. *)
Record Env : Type := mkEnv {
  (** [tempfile.NamedTemporaryFile(suffix='.wav', delete=False)]: its name. *)
  named_temporary_file : result string;
  (** [subprocess.run(cmd, stdout=PIPE, stderr=PIPE, text=True)]: the
      return code and the whole text of the error stream. *)
  subprocess_run : list string -> result (Z * string);
  (** [wavfile.read(path)]: the sample rate and the 16-bit samples. *)
  wavfile_read : string -> result (Z * list Z);
  (** Whether [os.unlink] may remove a scratch file that exists. *)
  unlink_allowed : bool;
  (** [librosa.load(self.audio_path, sr=22050, mono=True)]. *)
  librosa_load : result (list R * Z)
}.

Definition M (A : Type) : Type := World -> result A * World.

Definition ret {A : Type} (a : A) : M A := fun w => (Ok a, w).

Definition raise {A : Type} (e : exn) : M A := fun w => (Raise e, w).

Definition bind {A B : Type} (m : M A) (k : A -> M B) : M B :=
  fun w =>
    match m w with
    | (Ok a, w') => k a w'
    | (Raise e, w') => (Raise e, w')
    end.

Definition try_except {A : Type} (m : M A) (h : exn -> M A) : M A :=
  fun w =>
    match m w with
    | (Ok a, w') => (Ok a, w')
    | (Raise e, w') => h e w'
    end.

Definition lift {A : Type} (r : result A) : M A := fun w => (r, w).

Declare Scope analyze_scope.
Delimit Scope analyze_scope with analyze.
Notation "x <- m ;; k" := (bind m (fun x => k))
  (at level 61, m at next level, right associativity) : analyze_scope.
Notation "m ;; k" := (bind m (fun _ => k))
  (at level 61, right associativity) : analyze_scope.

Definition emit (sg : Signal) : M unit :=
  fun w => (Ok tt, mkWorld (scratch w) (signals w ++ [sg])).

Definition create_scratch (env : Env) : M string :=
  fun w =>
    match named_temporary_file env with
    | Ok name => (Ok name, mkWorld (name :: scratch w) (signals w))
    | Raise e => (Raise e, w)
    end.

Definition os_unlink (env : Env) (path : string) : M unit :=
  fun w =>
    if existsb (String.eqb path) (scratch w) then
      if unlink_allowed env
      then (Ok tt, mkWorld (remove path (scratch w)) (signals w))
      else (Raise (OSError "Permission denied"), w)
    else (Raise (FileNotFoundError "No such file or directory"), w).

(** The command of [extract_video_audio_ffmpeg]. *)
Definition extract_command (video_path temp_audio_path : string) : list string :=
  ["ffmpeg"; "-i"; video_path; "-vn";
   "-acodec"; "pcm_s16le"; "-ar"; "22050"; "-ac"; "1";
   "-y"; temp_audio_path].

(** [audio.astype(np.float32) / 32768.0]: exact on 16-bit samples. *)
Definition to_float (audio : list Z) : list R :=
  map (fun x => (IZR x / 32768)%R) audio.

(** The text of the exception raised when the tool is not installed; the two
    editions word it differently. *)
Definition pro_not_found : string := "FFmpeg not found. Please install FFmpeg.".
Definition v2_not_found : string :=
  "FFmpeg not found. Please install FFmpeg and add it to your PATH.".

Section Worker.
Local Open Scope analyze_scope.

Variable not_found : string.
Variable env : Env.
Variable video_path : string.
Variable max_offset : Z.

(** [AudioSyncWorker.extract_video_audio_ffmpeg]. *)
Definition extract_video_audio_ffmpeg : M (list R * Z) :=
  try_except
    (temp_audio_path <- create_scratch env ;;
     let cmd := extract_command video_path temp_audio_path in
     result <- lift (subprocess_run env cmd) ;;
     let '(returncode, stderr) := result in
     (if negb (returncode =? 0)%Z
      then raise (Exception (String.append "FFmpeg failed: " stderr))
      else ret tt) ;;
     read <- lift (wavfile_read env temp_audio_path) ;;
     let '(sample_rate, audio) := read in
     try_except (os_unlink env temp_audio_path) (fun _ => ret tt) ;;
     let audio := to_float audio in
     ret (audio, sample_rate))
    (fun e =>
       match e with
       | FileNotFoundError _ => raise (Exception not_found)
       | _ =>
           raise (Exception
                    (String.append "Failed to extract video audio: "
                       (str_exn e)))
       end).

(** [AudioSyncWorker.load_audio_file]. *)
Definition load_audio_file : M (list R * Z) :=
  try_except
    (lift (librosa_load env))
    (fun e =>
       raise (Exception
                (String.append "Failed to load audio file: " (str_exn e)))).

(** [AudioSyncWorker.run]. *)
Definition run : World -> World :=
  fun w =>
    snd (try_except
      (emit (Progress 10 "Extracting audio from video...") ;;
       video_audio <- extract_video_audio_ffmpeg ;;
       emit (Progress 30 "Loading external audio file...") ;;
       external_audio <- load_audio_file ;;
       emit (Progress 50 "Performing cross-correlation analysis...") ;;
       result <- lift (cross_correlation_sync max_offset video_audio
                         external_audio) ;;
       emit (Progress 100 "Synchronization complete!") ;;
       emit (Finished result))
      (fun e => emit (Error (str_exn e))) w).

End Worker.

End Analyze.

(** The monitoring loop reads one line per turn: the number of lines in a
    text, the last one counted also when no newline ends it. *)
Fixpoint count_lines (s : string) (inside : bool) : nat :=
  match s with
  | EmptyString => if inside then 1 else 0
  | String c rest =>
      if Ascii.eqb c "010"%char then S (count_lines rest false)
      else count_lines rest true
  end.

Definition line_count (s : string) : nat := count_lines s false.

(** A signal that ends a flow. *)
Definition terminal (sg : Signal) : bool :=
  match sg with Progress _ _ => false | Finished _ | Error _ => true end.

(** The percentages of the progress signals in a list, in order. *)
Fixpoint percentages (sgs : list Signal) : list Z :=
  match sgs with
  | [] => []
  | Progress v _ :: rest => v :: percentages rest
  | _ :: rest => percentages rest
  end.

(** A list of numbers that never goes down. *)
Fixpoint nondecreasing (l : list Z) : bool :=
  match l with
  | x :: (y :: _) as rest => (x <=? y)%Z && nondecreasing rest
  | _ => true
  end.

(** The three stages of [apply_offset_to_audio] as one answer. *)
Definition offset_stage (env : Env) (self : Worker) : result unit :=
  bind_result (librosa_load env) (fun loaded =>
    let '(audio, sr) := loaded in
    bind_result (Applier.shift_samples (offset self) audio sr) (fun shifted =>
      sf_write env shifted sr)).

(** A 16-bit sample, as [wavfile.read] gives for [pcm_s16le]. *)
Definition int16 (x : Z) : Prop := (-32768 <= x <= 32767)%Z.

(** An argument given anywhere in a command. *)
Definition has_flag (f : string) (cmd : list string) : bool :=
  existsb (String.eqb f) cmd.

(** *** Example runs of the Analyze flow *)

(** The tool extracts three samples; the external audio has two. *)
Definition good_ingest : Analyze.Env :=
  {| Analyze.named_temporary_file := Ok "/tmp/tmpv1q7.wav";
     Analyze.subprocess_run := fun _ => Ok (0%Z, "");
     Analyze.wavfile_read := fun _ => Ok (22050%Z, [0; 16384; -32768]%Z);
     Analyze.unlink_allowed := true;
     Analyze.librosa_load := Ok ([(1 / 2)%R; 0%R], 22050%Z) |}.

(** The tool cannot read the video. *)
Definition bad_video : Analyze.Env :=
  {| Analyze.named_temporary_file := Ok "/tmp/tmpv1q7.wav";
     Analyze.subprocess_run := fun _ =>
       Ok (1%Z, "clip.mp4: Invalid data found when processing input");
     Analyze.wavfile_read := fun _ => Ok (22050%Z, []);
     Analyze.unlink_allowed := true;
     Analyze.librosa_load := Ok ([(1 / 2)%R; 0%R], 22050%Z) |}.

(** The tool is not installed. *)
Definition no_tool : Analyze.Env :=
  {| Analyze.named_temporary_file := Ok "/tmp/tmpv1q7.wav";
     Analyze.subprocess_run := fun _ =>
       Raise (FileNotFoundError "[Errno 2] No such file or directory: 'ffmpeg'");
     Analyze.wavfile_read := fun _ => Ok (22050%Z, []);
     Analyze.unlink_allowed := true;
     Analyze.librosa_load := Ok ([(1 / 2)%R; 0%R], 22050%Z) |}.

Definition analyze_start : Analyze.World := Analyze.mkWorld [] [].

(** A tool that rewrites its progress line twice, each time ending it with a
    carriage return, writes a last line and exits with code 0. *)
Definition progress_tool : Process :=
  mkProcess
    (String.append "frame=    1 fps=0.0" (String "013"
      (String.append "frame=   60 fps= 58" (String "013"
        (String.append "video:1kB audio:2kB" (String "013" (String "010" "")))))))
    1 0.

(** A run in which that tool succeeds, and the scratch file cannot be
    removed afterwards. *)
Definition good_export : Env :=
  {| named_temporary_file := Ok "/tmp/tmpk3x9.wav";
     librosa_load := Ok ([0%R; 1%R], 22050%Z);
     sf_write := fun _ _ => Ok tt;
     popen := fun _ => Ok progress_tool;
     unlink_allowed := false |}.

(** ** The window: what its handlers do to the buttons *)

Module Window.

(** The fields of [VideoAudioSyncApp] the handlers read and write, the same
    in both editions, and the number of worker threads of each kind that
    have been started and have not yet reported back. *)
Record State : Type := mkState {
  video_path : option string;
  audio_path : option string;
  sync_result : option SyncResult;
  sync_btn : bool;
  export_btn : bool;
  analyzing : nat;
  exporting : nat
}.

(** [__init__] and [init_ui]. *)
Definition init : State :=
  mkState None None None false false 0 0.

(** Python's truth value of a path that is [None] or a string. *)
Definition truthy (p : option string) : bool :=
  match p with
  | None => false
  | Some s => negb (is_empty s)
  end.

(** [check_ready_to_sync]. *)
Definition check_ready_to_sync (st : State) : State :=
  if truthy (video_path st) && truthy (audio_path st)
  then mkState (video_path st) (audio_path st) (sync_result st) true
         (export_btn st) (analyzing st) (exporting st)
  else mkState (video_path st) (audio_path st) (sync_result st) false
         (export_btn st) (analyzing st) (exporting st).

(** [select_video], with the path the file dialog returned (empty when the
    dialog was cancelled). *)
Definition select_video (file_path : string) (st : State) : State :=
  if negb (is_empty file_path)
  then check_ready_to_sync
         (mkState (Some file_path) (audio_path st) (sync_result st)
            (sync_btn st) (export_btn st) (analyzing st) (exporting st))
  else st.

(** [select_audio]. *)
Definition select_audio (file_path : string) (st : State) : State :=
  if negb (is_empty file_path)
  then check_ready_to_sync
         (mkState (video_path st) (Some file_path) (sync_result st)
            (sync_btn st) (export_btn st) (analyzing st) (exporting st))
  else st.

(** [analyze_sync]: both buttons off, a worker started. *)
Definition analyze_sync (st : State) : State :=
  mkState (video_path st) (audio_path st) (sync_result st) false false
    (S (analyzing st)) (exporting st).

(** [sync_complete], on the [finished] signal of an analysis worker. *)
Definition sync_complete (result : SyncResult) (st : State) : State :=
  mkState (video_path st) (audio_path st) (Some result) true true
    (pred (analyzing st)) (exporting st).

(** [sync_error], on the [error] signal of an analysis worker. *)
Definition sync_error (st : State) : State :=
  mkState (video_path st) (audio_path st) (sync_result st) true
    (export_btn st) (pred (analyzing st)) (exporting st).

(** [export_video], with the path the save dialog returned. *)
Definition export_video (output_path : string) (st : State) : State :=
  if is_empty output_path then st
  else mkState (video_path st) (audio_path st) (sync_result st) false false
         (analyzing st) (S (exporting st)).

(** [export_complete] and [export_error] do the same to the buttons. *)
Definition export_done (st : State) : State :=
  mkState (video_path st) (audio_path st) (sync_result st) true true
    (analyzing st) (pred (exporting st)).

(** What can happen to the window: a file button is always live, the other
    two buttons only when enabled, and a worker reports back only while it
    runs. *)
Inductive step : State -> State -> Prop :=
| step_select_video (p : string) (st : State) :
    step st (select_video p st)
| step_select_audio (p : string) (st : State) :
    step st (select_audio p st)
| step_analyze (st : State) :
    sync_btn st = true -> step st (analyze_sync st)
| step_sync_complete (r : SyncResult) (st : State) :
    (0 < analyzing st)%nat -> step st (sync_complete r st)
| step_sync_error (st : State) :
    (0 < analyzing st)%nat -> step st (sync_error st)
| step_export (p : string) (st : State) :
    export_btn st = true -> step st (export_video p st)
| step_export_done (st : State) :
    (0 < exporting st)%nat -> step st (export_done st).

Inductive reachable : State -> Prop :=
| reachable_init : reachable init
| reachable_step (st st' : State) :
    reachable st -> step st st' -> reachable st'.

(** Both files have been chosen. *)
Definition files_chosen (st : State) : bool :=
  truthy (video_path st) && truthy (audio_path st).

(** What holds of every state the window can get into: an enabled Analyze
    button and a running analysis have both files; an enabled Export button
    and a running export have both files and the result of an analysis. *)
Definition window_ok (st : State) : Prop :=
  (sync_btn st = true -> files_chosen st = true)
  /\ (export_btn st = true ->
      files_chosen st = true /\ sync_result st <> None)
  /\ ((0 < analyzing st)%nat -> files_chosen st = true)
  /\ ((0 < exporting st)%nat ->
      files_chosen st = true /\ sync_result st <> None).

(** The window after both files were chosen and Analyze was clicked. *)
Definition busy : State :=
  analyze_sync (select_audio "voice.wav" (select_video "clip.mp4" init)).

(** The line of the result text that reads the sign of the offset. *)
Inductive Interpretation : Type :=
| Into      (** the external audio starts INTO the video *)
| Before    (** the external audio starts BEFORE the video *)
| Aligned.  (** audio and video are already aligned *)

(** The branch of [sync_complete] on [result.offset_seconds]. *)
Definition interpretation (r : SyncResult) : Interpretation :=
  if Rlt_dec 0 (offset_seconds r) then Into
  else if Rlt_dec (offset_seconds r) 0 then Before
  else Aligned.

End Window.

Arguments Py.str : simpl never.

(** * Theorems *)

(** ** ExportPlanner *)

(** Unfolds a planned command and decides the option tests on it: literal
    arguments compare by computation, the profile's fields only with
    themselves. *)
Ltac cmd_eval :=
  cbn [Pro.build_ffmpeg_command V2.build_command app Py.join String.concat
       has_opt has_key has_scale_filter video_stream_copy String.append];
  repeat first
    [ rewrite String.eqb_refl
    | rewrite Bool.andb_false_r
    | rewrite Bool.orb_true_r
    | rewrite Bool.orb_false_r
    | progress cbn [String.eqb Ascii.eqb Bool.eqb andb orb Py.startswith] ].

Example replace_default_command :
  Pro.build_ffmpeg_command "v.mp4" "t.wav" "o.mp4" true default_settings =
  ["ffmpeg"; "-i"; "v.mp4"; "-i"; "t.wav"; "-c:v"; "libx264"; "-c:a"; "aac";
   "-b:v"; "8M"; "-b:a"; "192k"; "-crf"; "23"; "-preset"; "medium";
   "-map"; "0:v:0"; "-map"; "1:a:0"; "-shortest"; "-y"; "o.mp4"].
Proof. reflexivity. Qed.

(** Replace mode of the pro edition, by resolution. *)
Lemma replace_cases (v a o : string) (s : ExportSettings) :
  let cmd := Pro.build_ffmpeg_command v a o true s in
  if String.eqb (resolution s) "original"
  then has_scale_filter cmd = false
       /\ has_opt "-c:v" (video_codec s) cmd = true
       /\ video_stream_copy cmd = String.eqb (video_codec s) "copy"
  else has_opt "-vf" (String.append "scale=" (resolution s)) cmd = true
       /\ has_scale_filter cmd = true
       /\ video_stream_copy cmd = false.
Proof.
  intros cmd; subst cmd. unfold Pro.build_ffmpeg_command.
  destruct (String.eqb (resolution s) "original") eqn:E.
  - repeat split; cmd_eval; try reflexivity.
  - repeat split; cmd_eval; try reflexivity.
Qed.

(** MixWithOriginal mode of the pro edition. *)
Lemma mix_cases (v a o : string) (s : ExportSettings) :
  let cmd := Pro.build_ffmpeg_command v a o false s in
  has_opt "-filter_complex" audio_filter cmd = true
  /\ has_opt "-c:v" (video_codec s) cmd = true
  /\ video_stream_copy cmd = String.eqb (video_codec s) "copy"
  /\ has_scale_filter cmd = negb (String.eqb (resolution s) "original").
Proof.
  intros cmd; subst cmd. unfold Pro.build_ffmpeg_command.
  destruct (String.eqb (resolution s) "original") eqn:E;
    repeat split; cmd_eval; reflexivity.
Qed.

(** Both modes of the pro edition name the profile's audio codec and
    bitrate. *)
Lemma audio_always_encoded (v a o : string) (m : bool) (s : ExportSettings) :
  let cmd := Pro.build_ffmpeg_command v a o m s in
  has_opt "-c:a" (audio_codec s) cmd = true
  /\ has_opt "-b:a" (audio_bitrate s) cmd = true.
Proof.
  intros cmd; subst cmd. unfold Pro.build_ffmpeg_command.
  destruct m, (String.eqb (resolution s) "original") eqn:E;
    split; cmd_eval; reflexivity.
Qed.

(** The two literal commands of the v2 edition. *)
Lemma v2_commands (v a o : string) (m : bool) :
  let cmd := V2.build_command v a o m in
  video_stream_copy cmd = true
  /\ has_scale_filter cmd = false
  /\ has_opt "-c:a" "aac" cmd = true
  /\ has_opt "-b:a" "192k" cmd = true
  /\ has_opt "-filter_complex" audio_filter cmd = negb m.
Proof.
  intros cmd; subst cmd. destruct m; repeat split; cmd_eval; reflexivity.
Qed.

(** ** Python slices *)

Lemma slice_to_nonneg {A : Type} (a : list A) (k : Z) :
  (0 <= k)%Z -> Py.slice_to a k = firstn (Z.to_nat k) a.
Proof.
  intros Hk. unfold Py.slice_to.
  destruct (Z.ltb_spec k 0); [lia | reflexivity].
Qed.

Lemma slice_to_length {A : Type} (a : list A) (k : Z) :
  (0 <= k)%Z -> List.length (Py.slice_to a k) = Nat.min (Z.to_nat k) (List.length a).
Proof.
  intros Hk. rewrite slice_to_nonneg by assumption. apply length_firstn.
Qed.

Lemma slice_to_all {A : Type} (a : list A) (k : Z) :
  (Z.of_nat (List.length a) <= k)%Z -> Py.slice_to a k = a.
Proof.
  intros Hk. rewrite slice_to_nonneg by lia. apply firstn_all2. lia.
Qed.

Lemma slice_from_nonneg {A : Type} (a : list A) (k : Z) :
  (0 <= k)%Z -> Py.slice_from a k = skipn (Z.to_nat k) a.
Proof.
  intros Hk. unfold Py.slice_from.
  destruct (Z.ltb_spec k 0); [lia | reflexivity].
Qed.

(** ** OffsetEstimator *)

Section EstimatorFacts.
Local Open Scope R_scope.

Lemma eps_pos : 0 < eps.
Proof. unfold eps. apply Rinv_0_lt_compat. lra. Qed.

Lemma normalised_length (a : list R) : List.length (normalised a) = List.length a.
Proof.
  destruct a as [|x a]; [reflexivity|].
  unfold normalised, Np.div; simpl. now rewrite length_map.
Qed.

Lemma sync_unfold (max_offset : Z) (va ea : list R * Z) :
  fst va <> [] -> fst ea <> [] ->
  cross_correlation_sync max_offset va ea =
  bind_result (Np.argmax (correlation_of max_offset va ea))
    (fun k => Ok (result_at max_offset va ea k)).
Proof.
  destruct va as [vid vsr], ea as [ext esr]; simpl.
  intros Hv He.
  destruct vid as [|v vid]; [congruence|].
  destruct ext as [|e ext]; [congruence|].
  unfold cross_correlation_sync, result_at, correlation_of, template_of,
    search_of, reverse_of, parts, normalised.
  cbn [Np.abs map Np.max bind_result fst snd].
  destruct (choose_template _ _ _ _ _) as [[t s] rv].
  reflexivity.
Qed.

Lemma sync_empty (max_offset : Z) (va ea : list R * Z) :
  fst va = [] \/ fst ea = [] ->
  is_ok (cross_correlation_sync max_offset va ea) = false.
Proof.
  destruct va as [vid vsr], ea as [ext esr]; simpl.
  intros [-> | ->]; [reflexivity|].
  destruct vid; reflexivity.
Qed.

(** Whatever the estimator returns is the record at the lag [np.argmax]
    chose. *)
Lemma sync_result (max_offset : Z) (va ea : list R * Z) (r : SyncResult) :
  cross_correlation_sync max_offset va ea = Ok r ->
  exists k,
    Np.argmax (correlation_of max_offset va ea) = Ok k
    /\ r = result_at max_offset va ea k.
Proof.
  intros Hr.
  destruct (fst va) as [|v vid] eqn:Ev.
  { pose proof (sync_empty max_offset va ea (or_introl Ev)) as H.
    rewrite Hr in H. discriminate. }
  destruct (fst ea) as [|e ext] eqn:Ee.
  { pose proof (sync_empty max_offset va ea (or_intror Ee)) as H.
    rewrite Hr in H. discriminate. }
  rewrite sync_unfold in Hr by (rewrite ?Ev, ?Ee; discriminate).
  destruct (Np.argmax (correlation_of max_offset va ea)) as [k|]; simpl in Hr;
    [|discriminate].
  injection Hr as <-. exists k. split; reflexivity.
Qed.

(** [reverse] tells which buffer the template was cut from. *)
Lemma template_source (max_offset : Z) (vid ext : list R) (vsr esr : Z) :
  template_of max_offset (vid, vsr) (ext, esr) =
  if reverse_of max_offset (vid, vsr) (ext, esr)
  then Py.slice_to (normalised ext)
         (Z.min (Z.of_nat (List.length ext)) (30 * esr))
  else Py.slice_to (normalised vid)
         (Z.min (Z.of_nat (List.length vid)) (30 * vsr)).
Proof.
  unfold template_of, reverse_of, parts, choose_template; cbn [fst snd].
  rewrite !normalised_length.
  destruct (List.length vid <? List.length ext)%nat; reflexivity.
Qed.

(** *** [np.argmax] *)

Lemma argmax_from_spec (rest pre : list R) (best_i : nat) (best : R) :
  (best_i < List.length pre)%nat ->
  nth best_i pre 0 = best ->
  (forall j, (j < List.length pre)%nat -> nth j pre 0 <= best) ->
  (forall j, (j < best_i)%nat -> nth j pre 0 < best) ->
  let k := Np.argmax_from best_i best (List.length pre) rest in
  let l := pre ++ rest in
  (k < List.length l)%nat
  /\ (forall j, (j < List.length l)%nat -> nth j l 0 <= nth k l 0)
  /\ (forall j, (j < k)%nat -> nth j l 0 < nth k l 0).
Proof.
  revert pre best_i best.
  induction rest as [|x rest IH]; intros pre best_i best Hi Hb Hmax Hfirst; simpl.
  - rewrite app_nil_r, Hb. auto.
  - assert (Hlen : List.length (pre ++ [x]) = S (List.length pre))
      by (rewrite length_app; simpl; lia).
    assert (Hsplit : pre ++ x :: rest = (pre ++ [x]) ++ rest)
      by (rewrite <- app_assoc; reflexivity).
    assert (Hold : forall j, (j < List.length pre)%nat ->
                             nth j (pre ++ [x]) 0 = nth j pre 0)
      by (intros j Hj; apply app_nth1; exact Hj).
    assert (Hnew : nth (List.length pre) (pre ++ [x]) 0 = x)
      by (rewrite app_nth2, Nat.sub_diag by lia; reflexivity).
    rewrite Hsplit, <- Hlen.
    destruct (Rlt_dec best x) as [Hlt | Hge].
    + apply IH.
      * lia.
      * exact Hnew.
      * intros j Hj. rewrite Hlen in Hj.
        destruct (Nat.eq_dec j (List.length pre)) as [-> | Hne].
        -- rewrite Hnew. lra.
        -- rewrite Hold by lia. specialize (Hmax j ltac:(lia)). lra.
      * intros j Hj. rewrite Hold by lia. specialize (Hmax j Hj). lra.
    + apply IH.
      * lia.
      * rewrite Hold by lia. exact Hb.
      * intros j Hj. rewrite Hlen in Hj.
        destruct (Nat.eq_dec j (List.length pre)) as [-> | Hne].
        -- rewrite Hnew. lra.
        -- rewrite Hold by lia. apply Hmax. lia.
      * intros j Hj. rewrite Hold by lia. apply Hfirst. exact Hj.
Qed.

(** [np.argmax] answers on a non-empty array, with the first index of the
    largest entry. *)
Lemma argmax_spec (l : list R) :
  l <> [] ->
  exists k, Np.argmax l = Ok k
    /\ (k < List.length l)%nat
    /\ (forall j, (j < List.length l)%nat -> nth j l 0 <= nth k l 0)
    /\ (forall j, (j < k)%nat -> nth j l 0 < nth k l 0).
Proof.
  destruct l as [|x rest]; [congruence|]. intros _.
  exists (Np.argmax_from 0 x 1 rest). split; [reflexivity|].
  apply (argmax_from_spec rest [x] 0%nat x).
  - simpl; lia.
  - reflexivity.
  - intros j Hj. simpl in Hj. assert (j = 0%nat) as -> by lia. simpl. lra.
  - intros j Hj. lia.
Qed.

(** An index whose entry is above all earlier ones and not below any later
    one is the answer. *)
Lemma argmax_unique (l : list R) (k : nat) :
  (k < List.length l)%nat ->
  (forall j, (j < k)%nat -> nth j l 0 < nth k l 0) ->
  (forall j, (j < List.length l)%nat -> nth j l 0 <= nth k l 0) ->
  Np.argmax l = Ok k.
Proof.
  intros Hk Hbefore Hall.
  destruct (argmax_spec l) as (k' & -> & Hk' & Hall' & Hbefore').
  { intros ->. simpl in Hk. lia. }
  f_equal.
  destruct (Nat.lt_trichotomy k' k) as [Hlt | [Heq | Hgt]]; [|exact Heq|].
  - specialize (Hbefore k' Hlt). specialize (Hall' k Hk). lra.
  - specialize (Hbefore' k Hgt). specialize (Hall k' Hk'). lra.
Qed.

(** *** The correlation array *)

Lemma slide_length (a b : list R) :
  List.length (Np.slide a b) = (List.length a - List.length b + 1)%nat.
Proof. unfold Np.slide. now rewrite length_map, length_seq. Qed.

Lemma slide_nth (a b : list R) (lag : nat) :
  (lag < List.length a - List.length b + 1)%nat ->
  nth lag (Np.slide a b) 0 = Np.dot (skipn lag a) b.
Proof.
  intros Hlag. unfold Np.slide.
  rewrite (nth_indep _ 0 ((fun lag => Np.dot (skipn lag a) b) 0%nat))
    by (now rewrite length_map, length_seq).
  rewrite (map_nth (fun lag => Np.dot (skipn lag a) b)).
  now rewrite seq_nth.
Qed.

Lemma correlate_valid_slide (a b : list R) :
  b <> [] -> (List.length b <= List.length a)%nat ->
  Np.correlate_valid a b = Np.slide a b.
Proof.
  intros Hb Hle. unfold Np.correlate_valid.
  destruct a as [|x a]; [destruct b; [congruence | simpl in Hle; lia]|].
  destruct b as [|y b]; [congruence|].
  destruct (Nat.leb_spec (List.length (y :: b)) (List.length (x :: a)));
    [reflexivity | lia].
Qed.

(** *** Template and search signal *)

Section Parts.
Variable max_offset : Z.
Variables vid ext : list R.
Variables vsr esr : Z.
Hypothesis vid_nonempty : vid <> [].
Hypothesis ext_nonempty : ext <> [].
Hypothesis vsr_pos : (0 < vsr)%Z.
Hypothesis esr_pos : (0 < esr)%Z.
Hypothesis max_offset_nonneg : (0 <= max_offset)%Z.

Let va := (vid, vsr).
Let ea := (ext, esr).

Lemma reverse_of_lengths :
  reverse_of max_offset va ea = negb (List.length vid <? List.length ext)%nat.
Proof.
  unfold reverse_of, parts, choose_template, va, ea; cbn [fst snd].
  rewrite !normalised_length.
  destruct (List.length vid <? List.length ext)%nat; reflexivity.
Qed.

Lemma template_length :
  List.length (template_of max_offset va ea) =
  if (List.length vid <? List.length ext)%nat
  then Nat.min (List.length vid) (Z.to_nat (30 * vsr))
  else Nat.min (List.length ext) (Z.to_nat (30 * esr)).
Proof.
  unfold template_of, parts, choose_template, va, ea; cbn [fst snd].
  rewrite !normalised_length.
  destruct (List.length vid <? List.length ext)%nat; cbn [fst snd];
    rewrite slice_to_length, normalised_length by lia; lia.
Qed.

Lemma search_length :
  List.length (search_of max_offset va ea) =
  let n := List.length (template_of max_offset va ea) in
  if (List.length vid <? List.length ext)%nat
  then Nat.min (List.length ext) (n + Z.to_nat (max_offset * vsr))
  else Nat.min (List.length vid) (n + Z.to_nat (max_offset * vsr)).
Proof.
  unfold template_of, search_of, parts, choose_template, va, ea; cbn [fst snd].
  rewrite !normalised_length.
  destruct (List.length vid <? List.length ext)%nat; cbn [fst snd];
    rewrite slice_to_length, normalised_length by nia; nia.
Qed.

Lemma template_nonempty : (1 <= List.length (template_of max_offset va ea))%nat.
Proof.
  rewrite template_length.
  assert (List.length vid <> 0%nat) by (destruct vid; simpl; congruence).
  assert (List.length ext <> 0%nat) by (destruct ext; simpl; congruence).
  destruct (List.length vid <? List.length ext)%nat; lia.
Qed.

Lemma template_fits :
  (List.length (template_of max_offset va ea)
   <= List.length (search_of max_offset va ea))%nat.
Proof.
  rewrite search_length. cbv zeta. rewrite template_length.
  destruct (Nat.ltb_spec (List.length vid) (List.length ext)); lia.
Qed.

Lemma correlation_is_slide :
  correlation_of max_offset va ea =
  Np.slide (search_of max_offset va ea) (template_of max_offset va ea).
Proof.
  unfold correlation_of. apply correlate_valid_slide.
  - pose proof template_nonempty as H.
    intros E. rewrite E in H. simpl in H. lia.
  - apply template_fits.
Qed.

Lemma correlation_length :
  List.length (correlation_of max_offset va ea) =
  (List.length (search_of max_offset va ea)
   - List.length (template_of max_offset va ea) + 1)%nat.
Proof. rewrite correlation_is_slide. apply slide_length. Qed.

(** With non-empty buffers the estimator returns, and what it returns is the
    record at the first largest lag. *)
Lemma sync_returns :
  exists k,
    Np.argmax (correlation_of max_offset va ea) = Ok k
    /\ (k < List.length (correlation_of max_offset va ea))%nat
    /\ cross_correlation_sync max_offset va ea = Ok (result_at max_offset va ea k).
Proof.
  destruct (argmax_spec (correlation_of max_offset va ea)) as (k & Hk & Hlt & _).
  { intros E. pose proof correlation_length as H. rewrite E in H. simpl in H. lia. }
  exists k. repeat split; [exact Hk | exact Hlt |].
  rewrite sync_unfold by assumption. rewrite Hk. reflexivity.
Qed.

End Parts.

End EstimatorFacts.

Section EstimatorClaims.
Local Open Scope R_scope.


(** C10: in every [SyncResult] the estimator returns, [sample_rate] is the
    sample rate of the audio extracted from the video, whichever buffer was
    the template. *)
Theorem sample_rate_is_video_rate (max_offset : Z) (va ea : list R * Z)
    (r : SyncResult) :
  cross_correlation_sync max_offset va ea = Ok r ->
  sample_rate r = snd va.
Proof.
  intros Hr. destruct (sync_result _ _ _ _ Hr) as (k & _ & ->). reflexivity.
Qed.

Lemma sample_rate_is_video_rate_witness :
  exists r,
    cross_correlation_sync 60 ([1; 0], 22050%Z) ([1; 0; 0], 44100%Z) = Ok r
    /\ sample_rate r = 22050%Z.
Proof.
  destruct (sync_returns 60 [1; 0] [1; 0; 0] 22050 44100) as (k & _ & _ & E);
    try discriminate; try lia.
  exists (result_at 60 ([1; 0], 22050%Z) ([1; 0; 0], 44100%Z) k).
  split; [exact E|].
  exact (sample_rate_is_video_rate 60 _ _ _ E).
Defined.

(** C9: with two buffers of exactly the same length the external audio is
    the template, so every result the estimator returns has its offset
    computed as [+peak_index / vid_sr], which is not negative; and for
    non-empty buffers the estimator does return. *)
Theorem equal_lengths_offset_nonneg (max_offset : Z) (vid ext : list R)
    (vsr esr : Z) :
  List.length vid = List.length ext ->
  (0 < vsr)%Z ->
  (forall r,
     cross_correlation_sync max_offset (vid, vsr) (ext, esr) = Ok r ->
     reverse_of max_offset (vid, vsr) (ext, esr) = true
     /\ template_of max_offset (vid, vsr) (ext, esr) =
        Py.slice_to (normalised ext)
          (Z.min (Z.of_nat (List.length ext)) (30 * esr))
     /\ exists k,
          Np.argmax (correlation_of max_offset (vid, vsr) (ext, esr)) = Ok k
          /\ offset_seconds r = INR k / IZR vsr
          /\ 0 <= offset_seconds r)
  /\ (vid <> [] -> (0 < esr)%Z -> (0 <= max_offset)%Z ->
      exists r, cross_correlation_sync max_offset (vid, vsr) (ext, esr) = Ok r).
Proof.
  intros Hlen Hvsr.
  assert (Hrev : reverse_of max_offset (vid, vsr) (ext, esr) = true).
  { rewrite reverse_of_lengths, Hlen, Nat.ltb_irrefl. reflexivity. }
  split.
  - intros r Hr. split; [exact Hrev|]. split.
    + rewrite template_source, Hrev. reflexivity.
    + destruct (sync_result _ _ _ _ Hr) as (k & Hk & ->).
      exists k. split; [exact Hk|].
      unfold result_at; cbn [offset_seconds snd]. rewrite Hrev.
      split; [reflexivity|].
      apply Rmult_le_pos; [apply pos_INR|].
      apply Rlt_le, Rinv_0_lt_compat, IZR_lt. exact Hvsr.
  - intros Hv Hesr Hmo.
    assert (He : ext <> [])
      by (intros ->; destruct vid; [congruence | discriminate]).
    destruct (sync_returns max_offset vid ext vsr esr Hv He Hvsr Hesr Hmo)
      as (k & _ & _ & Hr).
    eexists. exact Hr.
Qed.

Lemma equal_lengths_offset_nonneg_witness :
  exists k r,
    Np.argmax (correlation_of 60 ([0; 1], 22050%Z) ([1; 0], 22050%Z)) = Ok k
    /\ cross_correlation_sync 60 ([0; 1], 22050%Z) ([1; 0], 22050%Z) = Ok r
    /\ offset_seconds r = INR k / IZR 22050
    /\ 0 <= offset_seconds r.
Proof.
  destruct (equal_lengths_offset_nonneg 60 [0; 1] [1; 0] 22050 22050)
    as (Hall & Hreturns); [reflexivity | lia |].
  destruct Hreturns as (r & Hr); [discriminate | lia | lia |].
  destruct (Hall r Hr) as (_ & _ & k & Hk & Ho & Hpos).
  exists k, r. auto.
Defined.

(** C6, as the code has it: with positive sample rates and a search bound
    that is not negative, the estimator raises exactly when one of the two
    buffers is empty. Silence alone is no error. *)
Theorem fails_iff_empty (max_offset : Z) (vid ext : list R) (vsr esr : Z) :
  (0 < vsr)%Z -> (0 < esr)%Z -> (0 <= max_offset)%Z ->
  is_ok (cross_correlation_sync max_offset (vid, vsr) (ext, esr)) = false
  <-> vid = [] \/ ext = [].
Proof.
  intros Hvsr Hesr Hmo. split.
  - intros Hfail.
    destruct vid as [|v vid]; [now left|].
    destruct ext as [|e ext]; [now right|].
    destruct (sync_returns max_offset (v :: vid) (e :: ext) vsr esr)
      as (k & _ & _ & E); try discriminate; try assumption.
    rewrite E in Hfail. discriminate.
  - intros H. apply sync_empty. exact H.
Qed.

Lemma fails_iff_empty_witness :
  is_ok (cross_correlation_sync 60 ([], 22050%Z) ([1], 22050%Z)) = false
  <-> @nil R = [] \/ [1] = [].
Proof. apply (fails_iff_empty 60 [] [1] 22050 22050); lia. Defined.

(** C6 as the spec words it fails: two silent, non-empty buffers are
    degenerate, and the estimator returns a result for them. *)
Lemma silent_buffers_return :
  degenerate [0; 0] /\ degenerate [0]
  /\ is_ok (cross_correlation_sync 60 ([0; 0], 22050%Z) ([0], 22050%Z)) = true.
Proof.
  assert (Hs : forall a, (forall x, In x a -> x = 0) -> a <> [] -> silent a).
  { intros a Hz Hne. unfold silent, Np.max, Np.abs.
    destruct a as [|x a]; [congruence|]. simpl. f_equal.
    rewrite (Hz x) by (now left). rewrite Rabs_R0.
    assert (Ha : forall y, In y a -> y = 0) by (intros y Hy; apply Hz; now right).
    clear Hz Hne. induction a as [|y a IH]; simpl; [reflexivity|].
    rewrite (Ha y) by (now left). rewrite Rabs_R0.
    unfold Rmax at 2. destruct (Rle_dec 0 0); apply IH;
      intros z Hz; apply Ha; now right. }
  split; [|split].
  - right. apply Hs; [|discriminate].
    intros x [<- | [<- | []]]; reflexivity.
  - right. apply Hs; [|discriminate].
    intros x [<- | []]; reflexivity.
  - destruct (sync_returns 60 [0; 0] [0] 22050 22050) as (k & _ & _ & E);
      try discriminate; try lia.
    rewrite E. reflexivity.
Qed.

End EstimatorClaims.

(** ** The confidence score *)

Section Confidence.
Local Open Scope R_scope.

Lemma sum_sq_nonneg (a : list R) : 0 <= Np.sum (Np.sq a).
Proof.
  induction a as [|x a IH]; simpl; [lra|].
  pose proof (Rle_0_sqr x) as H. unfold Rsqr in H. lra.
Qed.

Lemma sum_sq_skipn (n : nat) (a : list R) :
  Np.sum (Np.sq (skipn n a)) <= Np.sum (Np.sq a).
Proof.
  revert a. induction n as [|n IH]; intros a; [simpl; lra|].
  destruct a as [|x a]; simpl; [lra|].
  specialize (IH a). pose proof (Rle_0_sqr x) as H. unfold Rsqr in H. lra.
Qed.

(** A binary quadratic form with non-positive discriminant and non-negative
    outer coefficients takes no negative value. *)
Lemma quadratic_form_nonneg (x y d A B : R) :
  0 <= A -> 0 <= B -> d * d <= A * B ->
  0 <= B * (x * x) - 2 * d * (x * y) + A * (y * y).
Proof.
  intros HA HB Hd.
  destruct (Req_dec B 0) as [-> | HB0].
  - assert (d = 0) as ->.
    { destruct (Req_dec d 0) as [|Hd0]; [assumption|].
      pose proof (Rsqr_pos_lt d Hd0) as H. unfold Rsqr in H. lra. }
    pose proof (Rle_0_sqr y) as H. unfold Rsqr in H. nra.
  - assert (HBpos : 0 < B) by lra.
    apply Rmult_le_reg_l with B; [exact HBpos|].
    replace (B * (B * (x * x) - 2 * d * (x * y) + A * (y * y)))
      with ((B * x - d * y) * (B * x - d * y) + (A * B - d * d) * (y * y))
      by ring.
    rewrite Rmult_0_r.
    pose proof (Rle_0_sqr (B * x - d * y)) as H1. unfold Rsqr in H1.
    pose proof (Rle_0_sqr y) as H2. unfold Rsqr in H2.
    assert (0 <= (A * B - d * d) * (y * y)) by (apply Rmult_le_pos; lra).
    lra.
Qed.

(** Cauchy-Schwarz for [dot], which stops at the shorter array. *)
Lemma dot_cauchy_schwarz (a b : list R) :
  Np.dot a b * Np.dot a b <= Np.sum (Np.sq a) * Np.sum (Np.sq b).
Proof.
  revert b. induction a as [|x a IH]; intros b.
  - simpl. pose proof (sum_sq_nonneg b). lra.
  - destruct b as [|y b].
    + simpl. pose proof (sum_sq_nonneg a).
      pose proof (Rle_0_sqr x) as H1. unfold Rsqr in H1. lra.
    + simpl. specialize (IH b).
      pose proof (sum_sq_nonneg a) as HA. pose proof (sum_sq_nonneg b) as HB.
      pose proof (quadratic_form_nonneg x y (Np.dot a b) _ _ HA HB IH) as Hq.
      lra.
Qed.

Lemma abs_le_sqrt (p m : R) : p * p <= m -> Rabs p <= sqrt m.
Proof.
  intros H. rewrite <- sqrt_Rsqr_abs. apply sqrt_le_1_alt. exact H.
Qed.

(** The value of a window never exceeds the normalising product. *)
Lemma window_bound (s t : list R) (lag : nat) :
  Rabs (Np.dot (skipn lag s) t)
  <= sqrt (Np.sum (Np.sq t) * Np.sum (Np.sq s)).
Proof.
  apply abs_le_sqrt.
  eapply Rle_trans; [apply dot_cauchy_schwarz|].
  rewrite (Rmult_comm (Np.sum (Np.sq t))).
  apply Rmult_le_compat_r; [apply sum_sq_nonneg | apply sum_sq_skipn].
Qed.

Lemma ratio_bounds (p m : R) :
  Rabs p <= m -> -1 < p / (m + eps) < 1.
Proof.
  intros H. pose proof eps_pos as He.
  assert (Hm : 0 <= m) by (pose proof (Rabs_pos p); lra).
  assert (HD : 0 < m + eps) by lra.
  assert (Hp : - m <= p <= m).
  { pose proof (Rle_abs p). pose proof (Rle_abs (- p)) as Hn.
    rewrite Rabs_Ropp in Hn. lra. }
  split.
  - apply Rmult_lt_reg_r with (m + eps); [exact HD|].
    unfold Rdiv. rewrite Rmult_assoc, Rinv_l by lra. lra.
  - apply Rmult_lt_reg_r with (m + eps); [exact HD|].
    unfold Rdiv. rewrite Rmult_assoc, Rinv_l by lra. lra.
Qed.

Lemma ratio_sign (p m : R) : 0 <= m -> (p / (m + eps) < 0 <-> p < 0).
Proof.
  intros Hm. pose proof eps_pos as He.
  assert (HD : 0 < / (m + eps)) by (apply Rinv_0_lt_compat; lra).
  unfold Rdiv. split; intros H.
  - destruct (Rlt_dec p 0) as [|Hn]; [assumption|].
    assert (0 <= p * / (m + eps)) by (apply Rmult_le_pos; lra). lra.
  - assert (0 < - p * / (m + eps)) by (apply Rmult_lt_0_compat; lra). lra.
Qed.

End Confidence.

Section ConfidenceClaims.
Local Open Scope R_scope.

(** The record built at a lag inside the correlation array. *)
Lemma result_confidence (max_offset : Z) (vid ext : list R) (vsr esr : Z)
    (k : nat) :
  vid <> [] -> ext <> [] ->
  (0 < vsr)%Z -> (0 < esr)%Z -> (0 <= max_offset)%Z ->
  (k < List.length (correlation_of max_offset (vid, vsr) (ext, esr)))%nat ->
  let r := result_at max_offset (vid, vsr) (ext, esr) k in
  -1 <= confidence r <= 1
  /\ (confidence r < 0 <-> correlation_peak r < 0).
Proof.
  intros Hv He Hvsr Hesr Hmo Hk r; subst r.
  unfold result_at; cbn [confidence correlation_peak].
  set (t := template_of max_offset (vid, vsr) (ext, esr)).
  set (s := search_of max_offset (vid, vsr) (ext, esr)).
  assert (Hpeak : nth k (correlation_of max_offset (vid, vsr) (ext, esr)) 0
                  = Np.dot (skipn k s) t).
  { rewrite correlation_length in Hk by assumption.
    rewrite correlation_is_slide by assumption.
    apply slide_nth. exact Hk. }
  rewrite Hpeak.
  pose proof (window_bound s t k) as Hw.
  pose proof (ratio_bounds _ _ Hw) as [Hlo Hhi].
  assert (Hmin : Rmin (Np.dot (skipn k s) t /
                       (sqrt (Np.sum (Np.sq t) * Np.sum (Np.sq s)) + eps)) 1
                 = Np.dot (skipn k s) t /
                   (sqrt (Np.sum (Np.sq t) * Np.sum (Np.sq s)) + eps))
    by (apply Rmin_left; lra).
  rewrite Hmin. split; [lra|].
  apply ratio_sign, sqrt_pos.
Qed.

(** C1, as the code has it: for two non-empty buffers (silent or not) the
    estimator returns a result whose confidence is at most 1, the one end
    that [min(confidence, 1.0)] clamps. Nothing clamps it from below: it is
    at least 0 when the correlation peak is, and a negative peak is passed
    on. *)
Theorem confidence_bounds (max_offset : Z) (vid ext : list R) (vsr esr : Z) :
  vid <> [] -> ext <> [] ->
  (0 < vsr)%Z -> (0 < esr)%Z -> (0 <= max_offset)%Z ->
  exists r,
    cross_correlation_sync max_offset (vid, vsr) (ext, esr) = Ok r
    /\ confidence r <= 1
    /\ (0 <= correlation_peak r -> 0 <= confidence r).
Proof.
  intros Hv He Hvsr Hesr Hmo.
  destruct (sync_returns max_offset vid ext vsr esr Hv He Hvsr Hesr Hmo)
    as (k & _ & Hk & Hr).
  exists (result_at max_offset (vid, vsr) (ext, esr) k).
  split; [exact Hr|].
  destruct (result_confidence max_offset vid ext vsr esr k Hv He Hvsr Hesr
              Hmo Hk) as [Hc Hs].
  split; [apply Hc|].
  intros Hp. destruct (Rlt_dec (confidence
    (result_at max_offset (vid, vsr) (ext, esr) k)) 0) as [Hneg | Hpos];
    [apply Hs in Hneg; lra | lra].
Qed.

Lemma confidence_bounds_witness :
  exists r,
    cross_correlation_sync 60 ([1; -1], 22050%Z) ([1], 22050%Z) = Ok r
    /\ confidence r <= 1.
Proof.
  destruct (confidence_bounds 60 [1; -1] [1] 22050 22050)
    as (r & Hr & Hc & _); try discriminate; try lia.
  exists r. split; assumption.
Defined.

(** C1 as the spec words it fails: neither buffer is silent, and the
    confidence is below zero. *)
Lemma negative_confidence :
  ~ degenerate [1] /\ ~ degenerate [-1]
  /\ exists r,
       cross_correlation_sync 60 ([1], 22050%Z) ([-1], 22050%Z) = Ok r
       /\ confidence r < 0.
Proof.
  assert (Habs : Rabs (-1) = 1) by (rewrite Rabs_left; lra).
  split; [|split].
  - intros [H | H]; [discriminate|].
    unfold silent in H; simpl in H. rewrite Rabs_R1 in H.
    injection H as H. lra.
  - intros [H | H]; [discriminate|].
    unfold silent in H; simpl in H. rewrite Habs in H.
    injection H as H. lra.
  - destruct (sync_returns 60 [1] [-1] 22050 22050) as (k & _ & Hk & E);
      try discriminate; try lia.
    exists (result_at 60 ([1], 22050%Z) ([-1], 22050%Z) k).
    split; [exact E|].
    apply (result_confidence 60 [1] [-1] 22050 22050 k);
      try discriminate; try lia.
    unfold result_at; cbn [correlation_peak].
    assert (Hcorr : correlation_of 60 ([1], 22050%Z) ([-1], 22050%Z)
                    = [1 / (1 + eps) * (-1 / (1 + eps)) + 0]).
    { unfold correlation_of, template_of, search_of, parts, choose_template,
        normalised. simpl. unfold Py.slice_to. simpl.
      rewrite Rabs_R1, Habs. reflexivity. }
    rewrite Hcorr in Hk |- *. simpl in Hk.
    assert (k = 0%nat) as -> by lia. simpl.
    pose proof eps_pos as He.
    assert (Hi : 0 < / (1 + eps)) by (apply Rinv_0_lt_compat; lra).
    unfold Rdiv. nra.
Qed.

End ConfidenceClaims.

(** ** OffsetApplier *)

Section ApplierFacts.

(** Rounding keeps the sign it is given. *)
Lemma round_aux_sign (sx : bool) (mx ex : Z) (lx : location) :
  match binary_round_aux F64.prec F64.emax sx mx ex lx with
  | S754_zero s | S754_infinity s | S754_finite s _ _ => s = sx
  | S754_nan => True
  end.
Proof.
  unfold binary_round_aux.
  destruct (shr_fexp F64.prec F64.emax mx ex lx) as [mrs e].
  destruct (shr_fexp F64.prec F64.emax _ e loc_Exact) as [mrs' e'].
  destruct (shr_m mrs'); [reflexivity | | exact I].
  destruct (Z.leb e' _); reflexivity.
Qed.

(** The float of a positive int is not negative. *)
Lemma of_int_sign (sr : Z) :
  (0 < sr)%Z ->
  match F64.of_int sr with
  | S754_zero s | S754_infinity s | S754_finite s _ _ => s = false
  | S754_nan => True
  end.
Proof.
  intros Hsr. destruct sr as [|p|p]; try lia.
  unfold F64.of_int, binary_normalize, binary_round.
  destruct (shl_align p 0 _) as [mz ez]. apply round_aux_sign.
Qed.

(** A float above zero is a positive finite number or plus infinity. *)
Lemma positive_cases (d : F64.float) :
  F64.ltb F64.zero d = true ->
  (exists m e, d = S754_finite false m e) \/ d = S754_infinity false.
Proof.
  destruct d as [s | s | | s m e]; cbn; try discriminate.
  - destruct s; [discriminate|]. intros _. right. reflexivity.
  - destruct s; [discriminate|]. intros _. left. exists m, e. reflexivity.
Qed.

(** The product of a positive offset and a positive rate, when [int]
    returns for it: plus zero, or a finite float above zero. *)
Lemma product_shape (d : F64.float) (sr n : Z) :
  F64.ltb F64.zero d = true -> (0 < sr)%Z ->
  Applier.int (F64.mul d (F64.of_int sr)) = Ok n ->
  (F64.mul d (F64.of_int sr) = S754_zero false /\ n = 0%Z)
  \/ (exists m e,
        F64.mul d (F64.of_int sr) = S754_finite false m e
        /\ n = Z.shiftl (Z.pos m) e).
Proof.
  intros Hd Hsr Hn. pose proof (of_int_sign sr Hsr) as Hy.
  destruct (positive_cases d Hd) as [(m & e & ->) | ->];
    destruct (F64.of_int sr) as [s | s | | s my ey];
    try (cbn in Hn; discriminate).
  - subst s. cbn in Hn. injection Hn as <-. left. split; reflexivity.
  - subst s. unfold F64.mul, SFmul in *. cbn [xorb] in *.
    pose proof (round_aux_sign false (Z.pos (m * my)) (e + ey) loc_Exact)
      as Hs.
    destruct (binary_round_aux F64.prec F64.emax false (Z.pos (m * my))
                (e + ey) loc_Exact) as [s | s | | s mz ez];
      cbn [Applier.int] in Hn; try discriminate.
    + subst s. injection Hn as <-. left. split; reflexivity.
    + subst s. injection Hn as <-. right. exists mz, ez. split; reflexivity.
Qed.

(** What [int] returns for a positive offset times a positive rate is not
    negative. *)
Lemma count_nonneg (d : F64.float) (sr n : Z) :
  F64.ltb F64.zero d = true -> (0 < sr)%Z ->
  Applier.int (F64.mul d (F64.of_int sr)) = Ok n -> (0 <= n)%Z.
Proof.
  intros Hd Hsr Hn.
  destruct (product_shape d sr n Hd Hsr Hn) as [[_ ->] | (m & e & _ & ->)];
    [lia | apply Z.shiftl_nonneg; lia].
Qed.

Lemma pow2_Q (p : positive) :
  (Qpower (2 # 1) (Z.pos p) == inject_Z (2 ^ Z.pos p))%Q.
Proof.
  pose proof (Zpower_Qpower 2 (Z.pos p) ltac:(lia)) as H.
  rewrite H. reflexivity.
Qed.

(** Shifting the mantissa by the exponent drops the fraction of the number
    the float stands for. *)
Lemma shiftl_truncates (m : positive) (e : Z) :
  (inject_Z (Z.shiftl (Z.pos m) e) <= inject_Z (Z.pos m) * Qpower (2 # 1) e
   /\ inject_Z (Z.pos m) * Qpower (2 # 1) e
      < inject_Z (Z.shiftl (Z.pos m) e) + 1)%Q.
Proof.
  destruct e as [|p|p].
  - cbn [Z.shiftl Qpower]. rewrite Qmult_1_r. split; [apply Qle_refl|].
    rewrite <- (Qplus_0_r (inject_Z (Z.pos m))) at 1.
    apply Qplus_lt_r. reflexivity.
  - rewrite Z.shiftl_mul_pow2 by lia. rewrite pow2_Q, <- inject_Z_mult.
    split; [apply Qle_refl|].
    rewrite <- (Qplus_0_r (inject_Z _)) at 1. apply Qplus_lt_r. reflexivity.
  - change (Z.shiftl (Z.pos m) (Z.neg p)) with (Z.shiftr (Z.pos m) (Z.pos p)).
    rewrite Z.shiftr_div_pow2 by lia.
    change (Qpower (2 # 1) (Z.neg p)) with (/ Qpower (2 # 1) (Z.pos p))%Q.
    rewrite pow2_Q.
    assert (Hpos : (0 < 2 ^ Z.pos p)%Z) by (apply Z.pow_pos_nonneg; lia).
    pose proof (Z.div_mod (Z.pos m) (2 ^ Z.pos p) ltac:(lia)) as Hdm.
    pose proof (Z.mod_pos_bound (Z.pos m) (2 ^ Z.pos p) Hpos) as Hb.
    set (q := (Z.pos m / 2 ^ Z.pos p)%Z) in *.
    set (t := (2 ^ Z.pos p)%Z) in *.
    assert (Ht : (0 < inject_Z t)%Q) by (unfold Qlt; simpl; lia).
    split.
    + apply Qle_shift_div_l; [exact Ht|].
      rewrite <- inject_Z_mult, <- Zle_Qle. nia.
    + apply Qlt_shift_div_r; [exact Ht|].
      change 1%Q with (inject_Z 1).
      rewrite <- inject_Z_plus, <- inject_Z_mult, <- Zlt_Qlt. nia.
Qed.

(** The count is the rounded product without its fraction. *)
Lemma count_truncates (d : F64.float) (sr n : Z) :
  F64.ltb F64.zero d = true -> (0 < sr)%Z ->
  Applier.int (F64.mul d (F64.of_int sr)) = Ok n ->
  (inject_Z n <= F64.to_Q (F64.mul d (F64.of_int sr))
   /\ F64.to_Q (F64.mul d (F64.of_int sr)) < inject_Z n + 1)%Q.
Proof.
  intros Hd Hsr Hn.
  destruct (product_shape d sr n Hd Hsr Hn)
    as [[-> ->] | (m & e & -> & ->)].
  - split; [apply Qle_refl | reflexivity].
  - cbn [F64.to_Q]. apply shiftl_truncates.
Qed.

Lemma opp_positive (d : F64.float) :
  F64.ltb F64.zero d = true ->
  F64.ltb F64.zero (F64.opp d) = false
  /\ F64.ltb (F64.opp d) F64.zero = true
  /\ F64.abs (F64.opp d) = d.
Proof.
  intros Hd.
  destruct (positive_cases d Hd) as [(m & e & ->) | ->];
    repeat split.
Qed.

Lemma shift_positive (d : F64.float) (audio : list R) (sr n : Z) :
  F64.ltb F64.zero d = true -> (0 < sr)%Z ->
  Applier.int (F64.mul d (F64.of_int sr)) = Ok n ->
  Applier.shift_samples d audio sr = Ok (repeat 0%R (Z.to_nat n) ++ audio).
Proof.
  intros Hd Hsr Hn. unfold Applier.shift_samples.
  rewrite Hd, Hn. cbn [bind_result]. unfold Np.zeros.
  pose proof (count_nonneg d sr n Hd Hsr Hn) as H0.
  destruct (Z.ltb_spec n 0); [lia|]. reflexivity.
Qed.

Lemma shift_negative (d : F64.float) (audio : list R) (sr n : Z) :
  F64.ltb F64.zero d = true -> (0 < sr)%Z ->
  Applier.int (F64.mul d (F64.of_int sr)) = Ok n ->
  Applier.shift_samples (F64.opp d) audio sr = Ok (skipn (Z.to_nat n) audio).
Proof.
  intros Hd Hsr Hn. unfold Applier.shift_samples.
  destruct (opp_positive d Hd) as (H1 & H2 & H3).
  rewrite H1, H2, H3, Hn. cbn [bind_result].
  rewrite slice_from_nonneg by (eapply count_nonneg; eassumption).
  reflexivity.
Qed.

Lemma shift_zero (s : bool) (audio : list R) (sr : Z) :
  Applier.shift_samples (S754_zero s) audio sr = Ok audio.
Proof. reflexivity. Qed.

End ApplierFacts.

Section ApplierClaims.

(** C5, as the code has it: the count is [n = int(d * sample_rate)], the
    binary64 product with its fraction dropped (not rounded to the nearest
    integer), whenever that product is finite. An offset [+d] prepends
    exactly [n] zero samples, an offset [-d] drops the first [n] samples or
    all of them when the buffer has fewer, so the two changes of length are
    opposite as soon as the buffer holds [n] samples; an offset of zero, of
    either sign, changes nothing. *)
Theorem shift_magnitudes (d : F64.float) (audio : list R) (sr count : Z) :
  F64.ltb F64.zero d = true -> (0 < sr)%Z ->
  Applier.int (F64.mul d (F64.of_int sr)) = Ok count ->
  let n := Z.to_nat count in
  (0 <= count)%Z
  /\ (inject_Z count <= F64.to_Q (F64.mul d (F64.of_int sr))
      /\ F64.to_Q (F64.mul d (F64.of_int sr)) < inject_Z count + 1)%Q
  /\ Applier.shift_samples d audio sr = Ok (repeat 0%R n ++ audio)
  /\ Applier.shift_samples (F64.opp d) audio sr = Ok (skipn n audio)
  /\ List.length (repeat 0%R n ++ audio) = (List.length audio + n)%nat
  /\ List.length (skipn n audio) = (List.length audio - Nat.min n (List.length audio))%nat
  /\ ((n <= List.length audio)%nat ->
      (Z.of_nat (List.length (skipn n audio)) - Z.of_nat (List.length audio)
       = - (Z.of_nat (List.length (repeat 0%R n ++ audio))
            - Z.of_nat (List.length audio)))%Z)
  /\ Applier.shift_samples F64.zero audio sr = Ok audio
  /\ Applier.shift_samples (F64.opp F64.zero) audio sr = Ok audio.
Proof.
  intros Hd Hsr Hcount n. subst n.
  split; [eapply count_nonneg; eassumption|].
  split; [apply count_truncates; assumption|].
  split; [apply shift_positive; assumption|].
  split; [apply shift_negative; assumption|].
  split; [rewrite length_app, repeat_length; lia|].
  split; [rewrite length_skipn; lia|].
  split; [|split; apply shift_zero].
  intros Hn. rewrite length_skipn, length_app, repeat_length. lia.
Qed.

(** At 0.7 s and 22050 Hz the count is 15434: the float nearest to 0.7 lies
    below it, and so does the product below 15435. *)
Lemma shift_magnitudes_witness :
  Applier.shift_samples (F64.of_Q (7 # 10)) [1%R; 2%R] 22050
  = Ok (repeat 0%R (Z.to_nat 15434) ++ [1%R; 2%R])
  /\ Applier.shift_samples (F64.opp (F64.of_Q (7 # 10))) [1%R; 2%R] 22050
     = Ok (skipn (Z.to_nat 15434) [1%R; 2%R]).
Proof.
  destruct (shift_magnitudes (F64.of_Q (7 # 10)) [1%R; 2%R] 22050 15434)
    as (_ & _ & Hp & Hm & _);
    [vm_compute; reflexivity | lia | vm_compute; reflexivity |].
  split; [exact Hp | exact Hm].
Defined.

(** C5 as the spec words it fails twice at an offset of 11 ms on a buffer of
    three samples at 22050 Hz: 242 zero samples are prepended where the
    product, 242.55, rounds to 243, and the negative offset can only remove
    three samples. *)
Lemma rounded_shift_fails :
  Applier.round (F64.to_Q (F64.of_Q (11 # 1000)) * inject_Z 22050) = 243%Z
  /\ exists padded trimmed,
       Applier.shift_samples (F64.of_Q (11 # 1000)) [1%R; 2%R; 3%R] 22050
       = Ok padded
       /\ Applier.shift_samples (F64.opp (F64.of_Q (11 # 1000)))
            [1%R; 2%R; 3%R] 22050 = Ok trimmed
       /\ (Z.of_nat (List.length padded) - 3 = 242)%Z
       /\ (Z.of_nat (List.length trimmed) - 3 = - 3)%Z.
Proof.
  split; [vm_compute; reflexivity|].
  exists (repeat 0%R (Z.to_nat 242) ++ [1%R; 2%R; 3%R]),
    (skipn (Z.to_nat 242) [1%R; 2%R; 3%R]).
  split; [apply shift_positive; [vm_compute; reflexivity | lia
                                | vm_compute; reflexivity]|].
  split; [apply shift_negative; [vm_compute; reflexivity | lia
                                | vm_compute; reflexivity]|].
  split; [rewrite length_app, repeat_length; reflexivity | reflexivity].
Qed.

End ApplierClaims.

(** ** ProcessOrchestrator *)

Section FlowFacts.

Lemma readline_eof (s : string) : is_empty (fst (readline s)) = true -> s = "".
Proof.
  destruct s as [|c s]; simpl; [reflexivity|].
  destruct (Ascii.eqb c "010"%char); [discriminate|].
  destruct (readline s); discriminate.
Qed.

(** The monitoring loop ends, with the error stream read to its end; all it
    does to the world is emit its progress signal some number of times. *)
Lemma monitor_spec (encoding : Signal) (p : Process) (w : World) :
  exists n,
    monitor encoding p w =
    (mkProcess "" 0 (returncode p),
     mkWorld (scratch w) (signals w ++ repeat encoding n)).
Proof.
  funelim (monitor encoding p w).
  - destruct H as [n Hn]. exists (S n). rewrite Hn. cbn [returncode scratch signals].
    rewrite <- app_assoc. reflexivity.
  - exists 0%nat. simpl. rewrite app_nil_r.
    assert (Hs : stderr p = "").
    { apply readline_eof. rewrite E. exact Eo. }
    pose proof E as E'. rewrite Hs in E'. simpl in E'.
    injection E' as _ <-.
    destruct w; reflexivity.
  - destruct H as [n Hn]. exists n. rewrite Hn. reflexivity.
Qed.


Lemma monitor_remaining (encoding : Signal) (p : Process) (w : World) :
  stderr (fst (monitor encoding p w)) = remaining_stderr p.
Proof.
  unfold remaining_stderr.
  destruct (monitor_spec encoding p w) as [n ->].
  destruct (monitor_spec (Progress 75 "Encoding video...") p (mkWorld [] []))
    as [m ->].
  reflexivity.
Qed.

Section Flow.
Variable env : Env.
Variable self : Worker.
Variable plan : string -> list string.
Variables merging encoding : Signal.
Variable w : World.


(** The flow up to the start of the tool went well. *)
Variable tmp : string.
Variable audio shifted : list R.
Variable sr : Z.
Variable p : Process.
Hypothesis tmp_created : named_temporary_file env = Ok tmp.
Hypothesis audio_loaded : librosa_load env = Ok (audio, sr).
Hypothesis audio_shifted :
  Applier.shift_samples (offset self) audio sr = Ok shifted.
Hypothesis audio_written : sf_write env shifted sr = Ok tt.
Hypothesis tool_started : popen env (plan tmp) = Ok p.

Lemma flow_after_start :
  exists n,
    export_flow env self plan merging encoding w =
    mkWorld (after_unlink env w tmp)
      (signals w
       ++ [Progress 10 "Preparing files...";
           Progress 30 "Applying audio offset...";
           merging]
       ++ repeat encoding n
       ++ (if (returncode p =? 0)%Z
           then [Progress 100 "Export complete!"; Finished (output_path self)]
           else [Error (String.append "FFmpeg encoding failed: "
                          (remaining_stderr (text_mode p)))])).
Proof.
  set (w1 := mkWorld (tmp :: scratch w)
               ((((signals w ++ [Progress 10 "Preparing files..."])
                  ++ [Progress 30 "Applying audio offset..."])
                 ++ [merging]))).
  destruct (monitor_spec encoding (text_mode p) w1) as [n Hn].
  exists n.
  unfold export_flow, try_except, bind, emit, create_scratch,
    apply_offset_to_audio, try_except, bind, lift, raise, ret, os_unlink,
    subprocess_Popen.
  cbn [scratch signals fst snd].
  rewrite tmp_created. cbn [scratch signals fst snd].
  rewrite audio_loaded, audio_shifted, audio_written, tool_started.
  cbn [bind_result].
  change (monitor encoding (text_mode p) _)
    with (monitor encoding (text_mode p) w1).
  rewrite Hn.
  cbn [scratch signals fst snd returncode stderr existsb w1 text_mode].
  rewrite String.eqb_refl. cbn [orb].
  pose proof (monitor_remaining encoding (text_mode p) w1) as Hrem.
  rewrite Hn in Hrem. cbn [stderr fst] in Hrem.
  unfold after_unlink.
  destruct (unlink_allowed env), (returncode p =? 0)%Z;
    cbn [negb scratch signals fst snd str_exn];
    try rewrite <- Hrem; f_equal;
    rewrite <- ?app_assoc; reflexivity.
Qed.

End Flow.

(** The flow when the audio cannot be loaded: nothing removes the scratch
    file that was created for it. *)
Lemma flow_load_failure (env : Env) (self : Worker)
    (plan : string -> list string) (merging encoding : Signal) (w : World)
    (tmp : string) (e : exn) :
  named_temporary_file env = Ok tmp ->
  librosa_load env = Raise e ->
  export_flow env self plan merging encoding w =
  mkWorld (tmp :: scratch w)
    (signals w
     ++ [Progress 10 "Preparing files...";
         Progress 30 "Applying audio offset...";
         Error (String.append "Failed to apply offset: " (str_exn e))]).
Proof.
  intros Htmp Hload.
  unfold export_flow, try_except, bind, emit, create_scratch,
    apply_offset_to_audio, try_except, bind, lift, raise, ret.
  cbn [scratch signals fst snd].
  rewrite Htmp. cbn [scratch signals fst snd].
  rewrite Hload. cbn [scratch signals fst snd str_exn].
  rewrite <- !app_assoc. reflexivity.
Qed.

End FlowFacts.

Section FlowClaims.


(** C7, as the code has it: when the flow gets as far as the tool and the
    tool exits with a code other than zero, the flow ends with one error
    signal, after the progress signals; its message starts with the fixed
    text [FFmpeg encoding failed: ]. Nothing is reported as finished. *)
Theorem encode_failure_message (env : Env) (self : Worker)
    (plan : string -> list string) (merging encoding : Signal) (w : World)
    (tmp : string) (audio shifted : list R) (sr : Z) (p : Process) :
  named_temporary_file env = Ok tmp ->
  librosa_load env = Ok (audio, sr) ->
  Applier.shift_samples (offset self) audio sr = Ok shifted ->
  sf_write env shifted sr = Ok tt ->
  popen env (plan tmp) = Ok p ->
  returncode p <> 0%Z ->
  exists n text,
    signals (export_flow env self plan merging encoding w) =
    signals w
    ++ [Progress 10 "Preparing files...";
        Progress 30 "Applying audio offset...";
        merging]
    ++ repeat encoding n
    ++ [Error (String.append "FFmpeg encoding failed: " text)].
Proof.
  intros Htmp Hload Hshift Hwrite Hpopen Hrc.
  destruct (flow_after_start env self plan merging encoding w tmp audio
              shifted sr p Htmp Hload Hshift Hwrite Hpopen) as [n Hn].
  exists n, (remaining_stderr (text_mode p)). rewrite Hn. cbn [signals].
  destruct (Z.eqb_spec (returncode p) 0); [contradiction | reflexivity].
Qed.

Lemma encode_failure_message_witness :
  exists n text,
    signals (Pro.run failing_encode a_worker default_settings start) =
    signals start
    ++ [Progress 10 "Preparing files...";
        Progress 30 "Applying audio offset...";
        Progress 50 "Encoding video (this may take a while)..."]
    ++ repeat (Progress 75 "Encoding video...") n
    ++ [Error (String.append "FFmpeg encoding failed: " text)].
Proof.
  apply (encode_failure_message failing_encode a_worker _ _ _ start
           "/tmp/tmpk3x9.wav" [0%R; 1%R]
           (repeat 0%R 22 ++ [0%R; 1%R]) 22050 failing_tool);
    [reflexivity | reflexivity | reflexivity | reflexivity | reflexivity
    | discriminate].
Defined.

(** C7 as the spec words it fails: the tool wrote two lines and exited with
    code 1; the one error message of the run is not that text. *)
Lemma encode_error_not_verbatim :
  returncode failing_tool = 1%Z
  /\ signals (Pro.run failing_encode a_worker default_settings start) =
     [Progress 10 "Preparing files...";
      Progress 30 "Applying audio offset...";
      Progress 50 "Encoding video (this may take a while)...";
      Progress 75 "Encoding video...";
      Progress 75 "Encoding video...";
      Error "FFmpeg encoding failed: "]
  /\ "FFmpeg encoding failed: " <> stderr failing_tool.
Proof.
  split; [reflexivity|]. split; [vm_compute; reflexivity | discriminate].
Qed.

(** Once the tool has run, the scratch file is removed whether the tool
    succeeded or not, as long as the file system allows it. *)
Lemma scratch_removed_after_tool (env : Env) (self : Worker)
    (plan : string -> list string) (merging encoding : Signal) (w : World)
    (tmp : string) (audio shifted : list R) (sr : Z) (p : Process) :
  named_temporary_file env = Ok tmp ->
  librosa_load env = Ok (audio, sr) ->
  Applier.shift_samples (offset self) audio sr = Ok shifted ->
  sf_write env shifted sr = Ok tt ->
  popen env (plan tmp) = Ok p ->
  unlink_allowed env = true ->
  existsb (String.eqb tmp)
    (scratch (export_flow env self plan merging encoding w)) = false.
Proof.
  intros Htmp Hload Hshift Hwrite Hpopen Hunlink.
  destruct (flow_after_start env self plan merging encoding w tmp audio
              shifted sr p Htmp Hload Hshift Hwrite Hpopen) as [n Hn].
  rewrite Hn. cbn [scratch]. unfold after_unlink, remove. rewrite Hunlink.
  induction (tmp :: scratch w) as [|f fs IH]; [reflexivity|].
  cbn [filter]. destruct (String.eqb f tmp) eqn:E; cbn [negb]; [exact IH|].
  cbn [existsb]. rewrite IH, String.eqb_sym, E. reflexivity.
Qed.

(** C8 fails on the code: when a stage before the tool raises, nothing
    removes the scratch file. After such a run of either edition the file is
    still there. *)
Theorem scratch_left_behind :
  scratch (Pro.run failing_load a_worker default_settings start)
  = ["/tmp/tmpk3x9.wav"]
  /\ scratch (V2.run failing_load a_worker start) = ["/tmp/tmpk3x9.wav"]
  /\ scratch (Pro.run missing_tool a_worker default_settings start)
     = ["/tmp/tmpk3x9.wav"]
  /\ scratch (V2.run missing_tool a_worker start) = ["/tmp/tmpk3x9.wav"].
Proof. repeat split; vm_compute; reflexivity. Qed.

End FlowClaims.

(** ** ExportPlanner: the claims *)

Section PlannerClaims.

(** C3, as the code has it. The pro edition in Replace mode: with
    resolution [original] the command has no scale filter and names the
    profile's video codec after [-c:v], so the video stream is copied only
    when that codec is the word [copy]; with another resolution the command
    has [-vf scale=<resolution>] and no stream copy. Audio is always encoded
    with the profile's codec and bitrate. The v2 edition has no profile: it
    always copies the video stream, never scales, and encodes audio as aac
    at 192k. *)
Theorem replace_plan (v a o : string) (s : ExportSettings) :
  let cmd := Pro.build_ffmpeg_command v a o true s in
  (if String.eqb (resolution s) "original"
   then has_scale_filter cmd = false
        /\ has_opt "-c:v" (video_codec s) cmd = true
        /\ video_stream_copy cmd = String.eqb (video_codec s) "copy"
   else has_opt "-vf" (String.append "scale=" (resolution s)) cmd = true
        /\ has_scale_filter cmd = true
        /\ video_stream_copy cmd = false)
  /\ has_opt "-c:a" (audio_codec s) cmd = true
  /\ has_opt "-b:a" (audio_bitrate s) cmd = true
  /\ video_stream_copy (V2.build_command v a o true) = true
  /\ has_scale_filter (V2.build_command v a o true) = false
  /\ has_opt "-c:a" "aac" (V2.build_command v a o true) = true
  /\ has_opt "-b:a" "192k" (V2.build_command v a o true) = true.
Proof.
  intros cmd.
  split; [exact (replace_cases v a o s)|].
  destruct (audio_always_encoded v a o true s) as [Hc Hb].
  destruct (v2_commands v a o true) as (H1 & H2 & H3 & H4 & _).
  repeat split; assumption.
Qed.


(** C3 as the spec words it fails: the default profile, at the original
    resolution, does not copy the video stream; and at 1280x720 the chosen
    codec is not in the command at all. *)
Lemma replace_not_copied :
  resolution default_settings = "original"
  /\ video_stream_copy
       (Pro.build_ffmpeg_command "clip.mp4" "t.wav" "out.mp4" true
          default_settings) = false
  /\ has_opt "-c:v" "libx264"
       (Pro.build_ffmpeg_command "clip.mp4" "t.wav" "out.mp4" true
          default_settings) = true
  /\ has_key "-c:v"
       (Pro.build_ffmpeg_command "clip.mp4" "t.wav" "out.mp4" true hd_720)
     = false.
Proof. repeat split. Qed.

(** C4, as the code has it. In MixWithOriginal mode both editions pass the
    two-branch graph (original audio at 0.3, new audio at 1.0, [amix] with
    [duration=shortest]) to [-filter_complex]. The pro edition names the
    profile's video codec after [-c:v], so the video stream is copied exactly
    when that codec is the word [copy]; the v2 edition always copies it. *)
Theorem mix_plan (v a o : string) (s : ExportSettings) :
  let cmd := Pro.build_ffmpeg_command v a o false s in
  has_opt "-filter_complex" audio_filter cmd = true
  /\ has_opt "-c:v" (video_codec s) cmd = true
  /\ video_stream_copy cmd = String.eqb (video_codec s) "copy"
  /\ has_opt "-filter_complex" audio_filter (V2.build_command v a o false) = true
  /\ video_stream_copy (V2.build_command v a o false) = true.
Proof.
  intros cmd.
  destruct (mix_cases v a o s) as (H1 & H2 & H3 & _).
  destruct (v2_commands v a o false) as (H4 & _ & _ & _ & H5).
  repeat split; assumption.
Qed.


(** C4 as the spec words it fails: a Mix command with the filter graph and a
    copied video stream, from the v2 edition and from the pro edition with a
    profile whose codec is [copy]. *)
Lemma mix_stream_copy :
  (has_opt "-filter_complex" audio_filter
     (V2.build_command "clip.mp4" "t.wav" "out.mp4" false) = true
   /\ video_stream_copy
        (V2.build_command "clip.mp4" "t.wav" "out.mp4" false) = true)
  /\ (has_opt "-filter_complex" audio_filter
        (Pro.build_ffmpeg_command "clip.mp4" "t.wav" "out.mkv" false remux)
      = true
      /\ video_stream_copy
           (Pro.build_ffmpeg_command "clip.mp4" "t.wav" "out.mkv" false remux)
         = true).
Proof. repeat split. Qed.

End PlannerClaims.

(** ** A template found in the reference buffer *)

Section Autocorrelation.
Local Open Scope R_scope.

Lemma fold_left_Rmax_ge (l : list R) (x : R) : x <= fold_left Rmax l x.
Proof.
  revert x. induction l as [|y l IH]; intros x; simpl; [lra|].
  eapply Rle_trans; [apply (Rmax_l x y) | apply IH].
Qed.

(** Normalising divides a non-empty buffer by a positive number. *)
Lemma normalised_scale (a : list R) :
  a <> [] -> exists c, 0 < c /\ normalised a = map (fun x => x / c) a.
Proof.
  destruct a as [|x a]; [congruence|]. intros _.
  unfold normalised, Np.max, Np.abs, Np.div. cbn [map].
  exists (fold_left Rmax (map Rabs a) (Rabs x) + eps). split; [|reflexivity].
  pose proof (fold_left_Rmax_ge (map Rabs a) (Rabs x)).
  pose proof (Rabs_pos x). pose proof eps_pos. lra.
Qed.

Lemma dot_scale (a b : list R) (c d : R) :
  Np.dot (map (fun x => x / c) a) (map (fun x => x / d) b)
  = Np.dot a b * (/ c * / d).
Proof.
  revert b. induction a as [|x a IH]; intros b; simpl; [ring|].
  destruct b as [|y b]; simpl; [ring|].
  rewrite IH. unfold Rdiv. ring.
Qed.

Lemma dot_self (a : list R) : Np.dot a a = Np.sum (Np.sq a).
Proof. induction a as [|x a IH]; simpl; [reflexivity | now rewrite IH]. Qed.

Lemma skipn_zeros_app (z lag : nat) (t : list R) :
  (lag <= z)%nat -> skipn lag (repeat 0 z ++ t) = repeat 0 (z - lag) ++ t.
Proof.
  revert lag. induction z as [|z IH]; intros lag Hlag.
  - assert (lag = 0%nat) as -> by lia. reflexivity.
  - destruct lag as [|lag]; [reflexivity|].
    simpl. apply IH. lia.
Qed.

Lemma sum_sq_zeros_app (z : nat) (t : list R) :
  Np.sum (Np.sq (repeat 0 z ++ t)) = Np.sum (Np.sq t).
Proof. induction z as [|z IH]; simpl; [reflexivity | rewrite IH; ring]. Qed.



Lemma sqdist_expand (a b : list R) :
  sqdist a b = paired_energy a b + paired_energy b a - 2 * Np.dot a b.
Proof.
  revert b. induction a as [|x a IH]; intros b.
  - destruct b; simpl; ring.
  - destruct b as [|y b]; simpl; [ring|]. rewrite IH. ring.
Qed.

Lemma paired_energy_le (a b : list R) : paired_energy a b <= Np.sum (Np.sq a).
Proof.
  revert b. induction a as [|x a IH]; intros b; simpl; [lra|].
  destruct b as [|y b].
  - pose proof (sum_sq_nonneg a). pose proof (Rle_0_sqr x) as Hx.
    unfold Rsqr in Hx. lra.
  - specialize (IH b). lra.
Qed.

Lemma sqdist_nonneg (a b : list R) : 0 <= sqdist a b.
Proof.
  revert b. induction a as [|x a IH]; intros b; simpl; [lra|].
  destruct b as [|y b]; [lra|].
  specialize (IH b). pose proof (Rle_0_sqr (x - y)) as Hxy.
  unfold Rsqr in Hxy. lra.
Qed.

(** A buffer that agrees with itself shifted is all zero. *)
Lemma shifted_equal_zero (s : nat) (t : list R) :
  sqdist (repeat 0 (S s) ++ t) t = 0 -> Forall (fun x => x = 0) t.
Proof.
  induction t as [|x t IH]; intros H; [constructor|].
  cbn [repeat app sqdist] in H.
  pose proof (sqdist_nonneg (repeat 0 s ++ x :: t) t) as Hd.
  pose proof (Rle_0_sqr (0 - x)) as Hx. unfold Rsqr in Hx.
  assert (Hx0 : (0 - x) * (0 - x) = 0) by lra.
  assert (x = 0) as ->.
  { apply Rmult_integral in Hx0. lra. }
  constructor; [reflexivity|]. apply IH.
  assert (Hsh : repeat 0 (S s) ++ t = repeat 0 s ++ 0 :: t).
  { change (0 :: t) with ([0] ++ t). rewrite app_assoc.
    f_equal. rewrite <- repeat_cons. reflexivity. }
  rewrite Hsh. lra.
Qed.

(** A buffer that is not all zero matches itself better than any shifted
    copy of itself. *)
Lemma shifted_dot_less (s : nat) (t : list R) :
  ~ Forall (fun x => x = 0) t ->
  Np.dot (repeat 0 (S s) ++ t) t < Np.dot t t.
Proof.
  intros Hnz. destruct (Rlt_dec (Np.dot (repeat 0 (S s) ++ t) t) (Np.dot t t))
    as [|Hge]; [assumption|].
  exfalso. apply Hnz. apply (shifted_equal_zero s).
  pose proof (sqdist_expand (repeat 0 (S s) ++ t) t) as He.
  pose proof (paired_energy_le (repeat 0 (S s) ++ t) t) as H1.
  pose proof (paired_energy_le t (repeat 0 (S s) ++ t)) as H2.
  rewrite sum_sq_zeros_app in H1.
  rewrite dot_self in Hge.
  pose proof (sqdist_nonneg (repeat 0 (S s) ++ t) t). lra.
Qed.

Lemma all_zero_silent (a : list R) :
  a <> [] -> Forall (fun x => x = 0) a -> silent a.
Proof.
  intros Hne Hz. unfold silent, Np.max, Np.abs.
  destruct a as [|x a]; [congruence|]. cbn [map]. f_equal.
  inversion Hz as [|? ? Hx Ha]; subst. rewrite Rabs_R0.
  clear Hz Hne. induction Ha as [|y a Hy Ha IH]; simpl; [reflexivity|].
  subst y. rewrite Rabs_R0.
  replace (Rmax 0 0) with 0 by (symmetry; apply Rmax_left; lra).
  exact IH.
Qed.

End Autocorrelation.

Section Scenario.
Local Open Scope R_scope.

Variable max_offset : Z.
Variables vsr esr : Z.
Hypothesis vsr_pos : (0 < vsr)%Z.
Hypothesis esr_pos : (0 < esr)%Z.
Hypothesis max_offset_nonneg : (0 <= max_offset)%Z.

(** The reference buffer is [z] zero samples and then [t]; the other buffer
    is [t] and then [noise]. *)
Variable z : nat.
Variables t noise : list R.
Hypothesis t_nonempty : t <> [].

Let vid := repeat 0 z ++ t.
Let ext := t ++ noise.

Hypothesis other_not_longer : (List.length noise <= z)%nat.
Hypothesis gap_covered : (Z.of_nat z <= max_offset * vsr)%Z.
Hypothesis template_whole : (Z.of_nat (List.length ext) <= 30 * esr)%Z.

Lemma scenario_vid_length : List.length vid = (z + List.length t)%nat.
Proof using Type. unfold vid. now rewrite length_app, repeat_length. Qed.

Lemma scenario_ext_length : List.length ext = (List.length t + List.length noise)%nat.
Proof using Type. unfold ext. now rewrite length_app. Qed.

Lemma scenario_branch : (List.length vid <? List.length ext)%nat = false.
Proof using other_not_longer.
  apply Nat.ltb_ge. rewrite scenario_vid_length, scenario_ext_length. lia.
Qed.

Lemma scenario_template :
  template_of max_offset (vid, vsr) (ext, esr) = normalised ext.
Proof using other_not_longer template_whole.
  unfold template_of, parts, choose_template; cbn [fst snd].
  rewrite !normalised_length, scenario_branch. cbn [fst snd].
  apply slice_to_all. rewrite normalised_length. lia.
Qed.

Lemma scenario_search :
  search_of max_offset (vid, vsr) (ext, esr) = normalised vid.
Proof using other_not_longer gap_covered template_whole.
  unfold search_of, parts, choose_template; cbn [fst snd].
  rewrite !normalised_length, scenario_branch. cbn [fst snd].
  apply slice_to_all.
  rewrite slice_to_all by (rewrite normalised_length; lia).
  rewrite !normalised_length, scenario_vid_length, scenario_ext_length. lia.
Qed.

Lemma scenario_nonempty : vid <> [] /\ ext <> [].
Proof using t_nonempty.
  unfold vid, ext. clear - t_nonempty.
  destruct t as [|x t']; [congruence|].
  split; [destruct z|]; discriminate.
Qed.

(** With noise after the template the lags stop short of [z]. *)
Lemma scenario_lags :
  List.length (correlation_of max_offset (vid, vsr) (ext, esr))
  = (z - List.length noise + 1)%nat.
Proof using All.
  destruct scenario_nonempty as [Hv He].
  rewrite correlation_length by assumption.
  rewrite scenario_template, scenario_search, !normalised_length.
  rewrite scenario_vid_length, scenario_ext_length. lia.
Qed.

End Scenario.

Section ScenarioPeak.
Local Open Scope R_scope.

(** With nothing after the template, the first largest lag is the number of
    leading zero samples. *)
Lemma scenario_peak (max_offset vsr esr : Z) (z : nat) (t : list R) :
  (0 < vsr)%Z -> (0 < esr)%Z -> (0 <= max_offset)%Z ->
  ~ Forall (fun x => x = 0) t ->
  (Z.of_nat z <= max_offset * vsr)%Z ->
  (Z.of_nat (List.length t) <= 30 * esr)%Z ->
  Np.argmax (correlation_of max_offset (repeat 0 z ++ t, vsr) (t, esr)) = Ok z.
Proof.
  intros Hvsr Hesr Hmo Hnz Hgap Hwhole.
  assert (Ht : t <> []) by (intros ->; apply Hnz; constructor).
  assert (Hext : t ++ [] = t) by apply app_nil_r.
  assert (Hshort : (List.length (@nil R) <= z)%nat) by (simpl; lia).
  assert (Hwhole' : (Z.of_nat (List.length (t ++ [])) <= 30 * esr)%Z)
    by (rewrite Hext; exact Hwhole).
  pose proof (scenario_nonempty z t [] Ht) as [Hv He].
  pose proof (scenario_template max_offset vsr esr z t [] Hshort Hwhole')
    as Htpl.
  pose proof (scenario_search max_offset vsr esr z t [] Hshort Hgap Hwhole')
    as Hsrch.
  pose proof (scenario_lags max_offset vsr esr Hvsr Hesr Hmo z t [] Ht Hshort
                Hgap Hwhole') as Hlen.
  rewrite Hext in *. cbn [List.length] in Hlen.
  rewrite Nat.sub_0_r in Hlen.
  destruct (normalised_scale _ Hv) as (cv & Hcv & Ev).
  destruct (normalised_scale _ He) as (ce & Hce & Ee).
  assert (Hk : 0 < / cv * / ce)
    by (apply Rmult_lt_0_compat; apply Rinv_0_lt_compat; assumption).
  assert (Hnth : forall lag, (lag <= z)%nat ->
            nth lag (correlation_of max_offset (repeat 0 z ++ t, vsr) (t, esr)) 0
            = Np.dot (repeat 0 (z - lag) ++ t) t * (/ cv * / ce)).
  { intros lag Hlag.
    rewrite correlation_is_slide by assumption.
    rewrite slide_nth.
    - rewrite Htpl, Hsrch, Ev, Ee, skipn_map, dot_scale.
      rewrite skipn_zeros_app by exact Hlag. reflexivity.
    - rewrite <- slide_length, <- correlation_is_slide by assumption.
      rewrite Hlen. lia. }
  apply argmax_unique.
  - rewrite Hlen. lia.
  - intros j Hj. rewrite !Hnth by lia. rewrite Nat.sub_diag. cbn [repeat app].
    apply Rmult_lt_compat_r; [exact Hk|].
    replace (z - j)%nat with (S (z - j - 1)) by lia.
    apply shifted_dot_less. exact Hnz.
  - intros j Hj. rewrite Hlen in Hj. rewrite !Hnth by lia.
    rewrite Nat.sub_diag. cbn [repeat app].
    apply Rmult_le_compat_r; [lra|].
    destruct (Nat.eq_dec j z) as [-> | Hne].
    + rewrite Nat.sub_diag. cbn [repeat app]. lra.
    + replace (z - j)%nat with (S (z - j - 1)) by lia.
      apply Rlt_le, shifted_dot_less. exact Hnz.
Qed.

End ScenarioPeak.

Section ScenarioResults.
Local Open Scope R_scope.

Variable max_offset : Z.
Variables vsr esr : Z.
Hypothesis vsr_pos : (0 < vsr)%Z.
Hypothesis esr_pos : (0 < esr)%Z.
Hypothesis max_offset_nonneg : (0 <= max_offset)%Z.

(** The sign of the offset follows the source of the template. *)
Lemma offset_sign (vid ext : list R) :
  vid <> [] -> ext <> [] ->
  exists k r,
    Np.argmax (correlation_of max_offset (vid, vsr) (ext, esr)) = Ok k
    /\ cross_correlation_sync max_offset (vid, vsr) (ext, esr) = Ok r
    /\ reverse_of max_offset (vid, vsr) (ext, esr)
       = negb (List.length vid <? List.length ext)%nat
    /\ template_of max_offset (vid, vsr) (ext, esr) =
       (if reverse_of max_offset (vid, vsr) (ext, esr)
        then Py.slice_to (normalised ext)
               (Z.min (Z.of_nat (List.length ext)) (30 * esr))
        else Py.slice_to (normalised vid)
               (Z.min (Z.of_nat (List.length vid)) (30 * vsr)))
    /\ offset_seconds r =
       if reverse_of max_offset (vid, vsr) (ext, esr)
       then INR k / IZR vsr else - INR k / IZR esr.
Proof using vsr_pos esr_pos max_offset_nonneg.
  intros Hv He.
  destruct (sync_returns max_offset vid ext vsr esr Hv He vsr_pos esr_pos
              max_offset_nonneg) as (k & Hk & _ & Hr).
  exists k, (result_at max_offset (vid, vsr) (ext, esr) k).
  split; [exact Hk|]. split; [exact Hr|].
  split; [apply reverse_of_lengths|].
  split; [apply template_source | reflexivity].
Qed.

(** Nothing after the template: the offset is the length of the leading
    silence. *)
Lemma scenario_offset (z : nat) (t : list R) :
  ~ silent t -> t <> [] ->
  (Z.of_nat z <= max_offset * vsr)%Z ->
  (Z.of_nat (List.length t) <= 30 * esr)%Z ->
  exists r,
    Np.argmax (correlation_of max_offset (repeat 0 z ++ t, vsr) (t, esr)) = Ok z
    /\ cross_correlation_sync max_offset (repeat 0 z ++ t, vsr) (t, esr) = Ok r
    /\ offset_seconds r = INR z / IZR vsr.
Proof using vsr_pos esr_pos max_offset_nonneg.
  intros Hns Ht Hgap Hwhole.
  assert (Hnz : ~ Forall (fun x => x = 0) t)
    by (intros Hz; apply Hns; apply all_zero_silent; assumption).
  pose proof (scenario_peak max_offset vsr esr z t vsr_pos esr_pos
                max_offset_nonneg Hnz Hgap Hwhole) as Hpeak.
  destruct (offset_sign (repeat 0 z ++ t) t) as (k & r & Hk & Hr & Hrev & _ & Ho).
  { destruct z; [exact Ht | discriminate]. }
  { exact Ht. }
  rewrite Hpeak in Hk. injection Hk as <-.
  exists r. repeat split; try assumption.
  assert (Hb : (List.length (repeat 0%R z ++ t) <? List.length t)%nat = false)
    by (apply Nat.ltb_ge; rewrite length_app; lia).
  rewrite Ho, Hrev, Hb. reflexivity.
Qed.

(** Something after the template: the offset stays below the length of the
    leading silence. *)
Lemma noise_offset_below (z : nat) (t noise : list R) :
  (0 < z)%nat -> t <> [] -> noise <> [] ->
  (Z.of_nat z <= max_offset * vsr)%Z ->
  (Z.of_nat (List.length (t ++ noise)) <= 30 * esr)%Z ->
  exists r,
    cross_correlation_sync max_offset (repeat 0 z ++ t, vsr) (t ++ noise, esr)
    = Ok r
    /\ offset_seconds r < INR z / IZR vsr.
Proof using vsr_pos esr_pos max_offset_nonneg.
  intros Hz Ht Hnoise Hgap Hwhole.
  assert (Hn1 : (1 <= List.length noise)%nat)
    by (destruct noise; [congruence | simpl; lia]).
  assert (Hvr : 0 < / IZR vsr) by (apply Rinv_0_lt_compat, IZR_lt; exact vsr_pos).
  assert (Her : 0 < / IZR esr) by (apply Rinv_0_lt_compat, IZR_lt; exact esr_pos).
  destruct (offset_sign (repeat 0 z ++ t) (t ++ noise))
    as (k & r & Hk & Hr & Hrev & _ & Ho).
  { destruct z; [lia | discriminate]. }
  { destruct t; [congruence | discriminate]. }
  exists r. split; [exact Hr|]. rewrite Ho, Hrev.
  destruct (Nat.ltb_spec (List.length (repeat 0 z ++ t))
                         (List.length (t ++ noise))) as [Hlt | Hge];
    cbn [negb].
  - assert (0 <= INR k) by apply pos_INR.
    assert (0 < INR z) by (apply lt_0_INR; exact Hz).
    unfold Rdiv. nra.
  - rewrite !length_app, repeat_length in Hge.
    assert (Hshort : (List.length noise <= z)%nat) by lia.
    pose proof (scenario_lags max_offset vsr esr vsr_pos esr_pos
                  max_offset_nonneg z t noise Ht Hshort Hgap Hwhole) as Hlen.
    destruct (argmax_spec (correlation_of max_offset (repeat 0 z ++ t, vsr)
                             (t ++ noise, esr))) as (k' & Hk' & Hb & _).
    { intros E. rewrite E in Hlen. simpl in Hlen. lia. }
    rewrite Hk in Hk'. injection Hk' as <-.
    rewrite Hlen in Hb.
    assert (Hkz : (k < z)%nat) by lia.
    apply lt_INR in Hkz. unfold Rdiv.
    apply Rmult_lt_compat_r; assumption.
Qed.

End ScenarioResults.

Section ScenarioClaims.
Local Open Scope R_scope.

Lemma loud_not_silent (x : R) (a : list R) : x <> 0 -> ~ silent (x :: a).
Proof.
  intros Hx Hs. unfold silent, Np.max, Np.abs in Hs. cbn [map] in Hs.
  injection Hs as Hs.
  pose proof (fold_left_Rmax_ge (map Rabs a) (Rabs x)) as Hge.
  pose proof (Rabs_pos_lt x Hx). lra.
Qed.

(** C2, as the code has it. The offset is [+peak_index / vid_sr] when the
    template is the external audio, [-peak_index / ext_sr] when it is the
    audio of the video. When the reference buffer is 1000 zero samples
    followed by a 500-sample template that is not silent, and the other
    buffer is that template and nothing more, the peak is at lag 1000 and the
    offset is [+1000 / vid_sr]. Samples after the template in the other
    buffer are part of the template that is searched for, and then the offset
    is less than [1000 / vid_sr]. *)
Theorem offset_sign_and_scenario (max_offset vsr esr : Z) :
  (0 < vsr)%Z -> (0 < esr)%Z -> (0 <= max_offset)%Z ->
  (forall vid ext, vid <> [] -> ext <> [] ->
     exists k r,
       Np.argmax (correlation_of max_offset (vid, vsr) (ext, esr)) = Ok k
       /\ cross_correlation_sync max_offset (vid, vsr) (ext, esr) = Ok r
       /\ reverse_of max_offset (vid, vsr) (ext, esr)
          = negb (List.length vid <? List.length ext)%nat
       /\ template_of max_offset (vid, vsr) (ext, esr) =
          (if reverse_of max_offset (vid, vsr) (ext, esr)
           then Py.slice_to (normalised ext)
                  (Z.min (Z.of_nat (List.length ext)) (30 * esr))
           else Py.slice_to (normalised vid)
                  (Z.min (Z.of_nat (List.length vid)) (30 * vsr)))
       /\ offset_seconds r =
          if reverse_of max_offset (vid, vsr) (ext, esr)
          then INR k / IZR vsr else - INR k / IZR esr)
  /\ (forall t, List.length t = 500%nat -> ~ silent t ->
        (1000 <= max_offset * vsr)%Z -> (500 <= 30 * esr)%Z ->
        exists r,
          Np.argmax (correlation_of max_offset (repeat 0 1000 ++ t, vsr) (t, esr))
          = Ok 1000%nat
          /\ cross_correlation_sync max_offset (repeat 0 1000 ++ t, vsr) (t, esr)
             = Ok r
          /\ offset_seconds r = 1000 / IZR vsr)
  /\ (forall t noise, List.length t = 500%nat -> noise <> [] ->
        (1000 <= max_offset * vsr)%Z ->
        (Z.of_nat (500 + List.length noise) <= 30 * esr)%Z ->
        exists r,
          cross_correlation_sync max_offset (repeat 0 1000 ++ t, vsr)
            (t ++ noise, esr) = Ok r
          /\ offset_seconds r < 1000 / IZR vsr).
Proof.
  intros Hvsr Hesr Hmo.
  assert (H1000 : INR 1000 = 1000) by (rewrite INR_IZR_INZ; reflexivity).
  split; [|split].
  - intros vid ext. apply offset_sign; assumption.
  - intros t Hlen Hns Hgap Hwhole.
    rewrite <- H1000.
    apply scenario_offset; try assumption.
    all: try (intros ->; discriminate).
    all: try (rewrite Hlen; exact Hwhole).
  - intros t noise Hlen Hnoise Hgap Hwhole.
    rewrite <- H1000.
    apply noise_offset_below; try assumption.
    + lia.
    + intros ->. discriminate.
    + rewrite length_app, Hlen. exact Hwhole.
Qed.

Lemma offset_sign_and_scenario_witness :
  exists r,
    cross_correlation_sync 60
      (repeat 0 1000 ++ repeat 1 500, 22050%Z) (repeat 1 500, 22050%Z) = Ok r
    /\ offset_seconds r = 1000 / IZR 22050.
Proof.
  destruct (offset_sign_and_scenario 60 22050 22050) as (_ & Hscenario & _);
    [lia | lia | lia |].
  destruct (Hscenario (repeat 1 500)) as (r & _ & Hr & Ho).
  - apply repeat_length.
  - apply loud_not_silent. lra.
  - lia.
  - lia.
  - exists r. split; assumption.
Defined.

(** C2 as the spec words it fails: one sample of noise after the template in
    the other buffer, the search bound of 60 s covering the gap of 1000
    samples, and the offset is not [1000 / sample_rate]. *)
Lemma scenario_with_noise_misses :
  (1000 <= 60 * 22050)%Z
  /\ exists r,
       cross_correlation_sync 60
         (repeat 0 1000 ++ repeat 1 500, 22050%Z)
         (repeat 1 500 ++ [1 / 2], 22050%Z) = Ok r
       /\ offset_seconds r <> 1000 / IZR 22050.
Proof.
  split; [lia|].
  destruct (noise_offset_below 60 22050 22050 ltac:(lia) ltac:(lia) ltac:(lia)
              1000 (repeat 1 500) [1 / 2]) as (r & Hr & Ho).
  - lia.
  - discriminate.
  - discriminate.
  - lia.
  - rewrite length_app, repeat_length. simpl. lia.
  - exists r. split; [exact Hr|].
    replace (INR 1000) with 1000 in Ho by (rewrite INR_IZR_INZ; reflexivity).
    lra.
Qed.

End ScenarioClaims.

(** * Further properties of the core *)

(** ** The estimator: normalising and the search window *)

Section Levels.
Local Open Scope R_scope.

(** Normalising multiplies a non-empty buffer by a positive number. *)
Lemma normalised_times (a : list R) :
  a <> [] -> exists c, 0 < c /\ normalised a = map (fun x => x * c) a.
Proof.
  intros Ha. destruct (normalised_scale a Ha) as (k & Hk & E).
  exists (/ k). split; [apply Rinv_0_lt_compat; exact Hk|].
  rewrite E. apply map_ext. intros x. reflexivity.
Qed.

End Levels.

Section EstimatorRange.
Local Open Scope R_scope.

(** The offset cannot leave the search window: with the external audio as
    template it lies between 0 and [max_offset] seconds; with the audio of
    the video as template it lies between [-max_offset * vid_sr / ext_sr]
    and 0, because the window is counted in samples of the video rate and
    the lag is converted with the external rate. *)
Theorem offset_within_search_bound (max_offset : Z) (vid ext : list R)
    (vsr esr : Z) (r : SyncResult) :
  (0 < vsr)%Z -> (0 < esr)%Z -> (0 <= max_offset)%Z ->
  cross_correlation_sync max_offset (vid, vsr) (ext, esr) = Ok r ->
  if (List.length vid <? List.length ext)%nat
  then - (IZR (max_offset * vsr) / IZR esr) <= offset_seconds r <= 0
  else 0 <= offset_seconds r <= IZR max_offset.
Proof.
  intros Hvsr Hesr Hmo Hr.
  assert (Hv : vid <> []).
  { intros ->. discriminate. }
  assert (He : ext <> []).
  { intros ->. pose proof (sync_empty max_offset (vid, vsr) ([], esr)
                             (or_intror eq_refl)) as H.
    rewrite Hr in H. discriminate. }
  destruct (sync_returns max_offset vid ext vsr esr Hv He Hvsr Hesr Hmo)
    as (k & _ & Hk & Hr').
  rewrite Hr in Hr'. injection Hr' as ->.
  rewrite correlation_length, search_length in Hk by assumption.
  cbv zeta in Hk.
  assert (Hkb : (k <= Z.to_nat (max_offset * vsr))%nat)
    by (destruct (List.length vid <? List.length ext)%nat; lia).
  assert (HkR : INR k <= IZR (max_offset * vsr)).
  { rewrite INR_IZR_INZ. apply IZR_le. nia. }
  assert (Hk0 : 0 <= INR k) by apply pos_INR.
  assert (Hvr : 0 < IZR vsr) by (apply IZR_lt; exact Hvsr).
  assert (Her : 0 < IZR esr) by (apply IZR_lt; exact Hesr).
  assert (Hvi : 0 < / IZR vsr) by (apply Rinv_0_lt_compat; exact Hvr).
  assert (Hei : 0 < / IZR esr) by (apply Rinv_0_lt_compat; exact Her).
  unfold result_at; cbn [offset_seconds snd]. rewrite reverse_of_lengths.
  destruct (List.length vid <? List.length ext)%nat; cbn [negb]; unfold Rdiv.
  - split.
    + rewrite <- Ropp_mult_distr_l. apply Ropp_le_contravar.
      apply Rmult_le_compat_r; lra.
    + assert (0 <= INR k * / IZR esr) by (apply Rmult_le_pos; lra). lra.
  - split; [apply Rmult_le_pos; lra|].
    apply Rmult_le_reg_r with (IZR vsr); [exact Hvr|].
    rewrite Rmult_assoc, Rinv_l by lra. rewrite Rmult_1_r, <- mult_IZR.
    exact HkR.
Qed.

Lemma offset_within_search_bound_witness :
  exists r,
    cross_correlation_sync 60 ([0; 3; 1], 22050%Z) ([3; 1], 22050%Z) = Ok r
    /\ 0 <= offset_seconds r <= 60.
Proof.
  destruct (sync_returns 60 [0; 3; 1] [3; 1] 22050 22050) as (k0 & _ & _ & E);
    try discriminate; try lia.
  eexists. split; [exact E|].
  exact (offset_within_search_bound 60 [0; 3; 1] [3; 1] 22050 22050 _
           ltac:(lia) ltac:(lia) ltac:(lia) E).
Defined.

End EstimatorRange.

(** ** Inputs with nothing to search *)

Section EstimatorEdges.
Local Open Scope R_scope.





Lemma dot_zero_l (a b : list R) : Forall (fun x => x = 0) a -> Np.dot a b = 0.
Proof.
  intros Ha. revert b. induction Ha as [|x a Hx Ha IH]; intros b;
    [reflexivity|].
  destruct b as [|y b]; [reflexivity|]. simpl. rewrite IH, Hx. ring.
Qed.

Lemma dot_zero_r (a b : list R) : Forall (fun x => x = 0) b -> Np.dot a b = 0.
Proof.
  intros Hb. revert a. induction Hb as [|y b Hy Hb IH]; intros a.
  - destruct a; reflexivity.
  - destruct a as [|x a]; [reflexivity|]. simpl. rewrite IH, Hy. ring.
Qed.

Lemma normalised_zero (a : list R) :
  Forall (fun x => x = 0) a -> Forall (fun x => x = 0) (normalised a).
Proof.
  intros Hz. destruct a as [|x a]; [constructor|].
  destruct (normalised_times (x :: a)) as (c & _ & ->); [discriminate|].
  apply Forall_map. eapply Forall_impl; [|exact Hz].
  intros y ->. ring.
Qed.

Lemma firstn_zero (n : nat) (a : list R) :
  Forall (fun x => x = 0) a -> Forall (fun x => x = 0) (firstn n a).
Proof.
  intros Hz. revert n. induction Hz as [|x a Hx Ha IH]; intros n.
  - rewrite firstn_nil. constructor.
  - destruct n; [constructor|]. simpl. constructor; [exact Hx | apply IH].
Qed.

Lemma skipn_zero (n : nat) (a : list R) :
  Forall (fun x => x = 0) a -> Forall (fun x => x = 0) (skipn n a).
Proof.
  intros Hz. revert n. induction Hz as [|x a Hx Ha IH]; intros n.
  - rewrite skipn_nil. constructor.
  - destruct n; [constructor; assumption|]. simpl. apply IH.
Qed.

Lemma slice_to_zero (a : list R) (k : Z) :
  Forall (fun x => x = 0) a -> Forall (fun x => x = 0) (Py.slice_to a k).
Proof.
  intros Hz. unfold Py.slice_to. destruct (k <? 0)%Z; apply firstn_zero, Hz.
Qed.

(** A silent recording on either side: the correlation is zero at every
    lag, so lag 0 is taken, and the result is offset 0 with peak 0 and
    confidence 0. No error is raised. *)
Theorem silent_buffer_result (max_offset : Z) (vid ext : list R)
    (vsr esr : Z) :
  vid <> [] -> ext <> [] ->
  (0 < vsr)%Z -> (0 < esr)%Z -> (0 <= max_offset)%Z ->
  Forall (fun x => x = 0) vid \/ Forall (fun x => x = 0) ext ->
  exists r,
    cross_correlation_sync max_offset (vid, vsr) (ext, esr) = Ok r
    /\ offset_seconds r = 0
    /\ correlation_peak r = 0
    /\ confidence r = 0.
Proof.
  intros Hv He Hvsr Hesr Hmo Hsilent.
  assert (Hparts : Forall (fun x => x = 0)
                     (template_of max_offset (vid, vsr) (ext, esr))
                   \/ Forall (fun x => x = 0)
                        (search_of max_offset (vid, vsr) (ext, esr))).
  { unfold template_of, search_of, parts, choose_template; cbn [fst snd].
    destruct (List.length (normalised vid) <? List.length (normalised ext))%nat;
      cbn [fst snd]; destruct Hsilent as [Hz | Hz];
      [left | right | right | left];
      apply slice_to_zero, normalised_zero, Hz. }
  assert (Hzero : forall j,
            (j < List.length (correlation_of max_offset (vid, vsr) (ext, esr)))%nat ->
            nth j (correlation_of max_offset (vid, vsr) (ext, esr)) 0 = 0).
  { intros j Hj. rewrite correlation_length in Hj by assumption.
    rewrite correlation_is_slide, slide_nth by assumption.
    destruct Hparts as [Hz | Hz].
    - apply dot_zero_r, Hz.
    - apply dot_zero_l, skipn_zero, Hz. }
  destruct (sync_returns max_offset vid ext vsr esr Hv He Hvsr Hesr Hmo)
    as (k & Hk & Hlt & Hr).
  assert (Hk0 : Np.argmax (correlation_of max_offset (vid, vsr) (ext, esr))
                = Ok 0%nat).
  { apply argmax_unique.
    - lia.
    - intros j Hj. lia.
    - intros j Hj. rewrite !Hzero by lia. lra. }
  rewrite Hk in Hk0. injection Hk0 as ->.
  exists (result_at max_offset (vid, vsr) (ext, esr) 0).
  split; [exact Hr|].
  unfold result_at; cbn [offset_seconds correlation_peak confidence INR].
  rewrite Hzero by exact Hlt.
  split; [destruct (reverse_of _ _ _); unfold Rdiv; ring|].
  split; [reflexivity|].
  unfold Rdiv. rewrite Rmult_0_l. apply Rmin_left. lra.
Qed.

Lemma silent_buffer_result_witness :
  exists r,
    cross_correlation_sync 60 ([0; 0; 0], 22050%Z) ([1; -1], 22050%Z) = Ok r
    /\ offset_seconds r = 0 /\ confidence r = 0.
Proof.
  destruct (silent_buffer_result 60 [0; 0; 0] [1; -1] 22050 22050)
    as (r & Hr & Ho & _ & Hc); try discriminate; try lia.
  - left. repeat constructor.
  - exists r. repeat split; assumption.
Defined.

End EstimatorEdges.

(** ** The applier, applied twice *)

Section ApplierComposition.

(** Delaying a recording by [d] and then advancing the result by [d] gives
    the recording back, sample for sample. *)
Theorem delay_then_advance (d : F64.float) (audio : list R) (sr n : Z) :
  F64.ltb F64.zero d = true -> (0 < sr)%Z ->
  Applier.int (F64.mul d (F64.of_int sr)) = Ok n ->
  bind_result (Applier.shift_samples d audio sr)
    (fun delayed => Applier.shift_samples (F64.opp d) delayed sr)
  = Ok audio.
Proof.
  intros Hd Hsr Hn.
  rewrite (shift_positive d audio sr n) by assumption. cbn [bind_result].
  rewrite (shift_negative d _ sr n) by assumption. f_equal.
  rewrite skipn_app, repeat_length, Nat.sub_diag.
  rewrite skipn_all2 by (rewrite repeat_length; lia). reflexivity.
Qed.

Lemma delay_then_advance_witness :
  bind_result (Applier.shift_samples (F64.of_Q (7 # 10)) [1%R; 2%R] 22050)
    (fun delayed =>
       Applier.shift_samples (F64.opp (F64.of_Q (7 # 10))) delayed 22050)
  = Ok [1%R; 2%R].
Proof.
  apply (delay_then_advance (F64.of_Q (7 # 10)) [1%R; 2%R] 22050 15434);
    [vm_compute; reflexivity | lia | vm_compute; reflexivity].
Defined.

(** Advancing first and delaying afterwards does not give the recording
    back: the length is restored only if the recording was long enough, and
    what was cut off returns as silence. *)
Theorem advance_then_delay (d : F64.float) (audio : list R) (sr count : Z) :
  F64.ltb F64.zero d = true -> (0 < sr)%Z ->
  Applier.int (F64.mul d (F64.of_int sr)) = Ok count ->
  let n := Z.to_nat count in
  bind_result (Applier.shift_samples (F64.opp d) audio sr)
    (fun advanced => Applier.shift_samples d advanced sr)
  = Ok (repeat 0%R n ++ skipn n audio)
  /\ List.length (repeat 0%R n ++ skipn n audio)
     = Nat.max n (List.length audio).
Proof.
  intros Hd Hsr Hn n. subst n.
  rewrite (shift_negative d audio sr count) by assumption. cbn [bind_result].
  rewrite (shift_positive d _ sr count) by assumption. split; [reflexivity|].
  rewrite length_app, repeat_length, length_skipn. lia.
Qed.

Lemma advance_then_delay_witness :
  bind_result (Applier.shift_samples (F64.opp (F64.of_Q (5 # 2))) [1%R; 2%R] 2)
    (fun advanced => Applier.shift_samples (F64.of_Q (5 # 2)) advanced 2)
  = Ok (repeat 0%R (Z.to_nat 5) ++ skipn (Z.to_nat 5) [1%R; 2%R]).
Proof.
  destruct (advance_then_delay (F64.of_Q (5 # 2)) [1%R; 2%R] 2 5) as [H _];
    [vm_compute; reflexivity | lia | vm_compute; reflexivity | exact H].
Defined.

(** An advance by more than the recording holds leaves an empty recording;
    it is no error. *)
Theorem advance_past_end (d : F64.float) (audio : list R) (sr n : Z) :
  F64.ltb F64.zero d = true -> (0 < sr)%Z ->
  Applier.int (F64.mul d (F64.of_int sr)) = Ok n ->
  (Z.of_nat (List.length audio) <= n)%Z ->
  Applier.shift_samples (F64.opp d) audio sr = Ok [].
Proof.
  intros Hd Hsr Hn Hlen. rewrite (shift_negative d audio sr n) by assumption.
  f_equal. apply skipn_all2. lia.
Qed.

Lemma advance_past_end_witness :
  Applier.shift_samples (F64.opp (F64.of_Q (1 # 1))) [1%R; 2%R; 3%R] 22050
  = Ok [].
Proof.
  apply (advance_past_end (F64.of_Q (1 # 1)) [1%R; 2%R; 3%R] 22050 22050);
    [vm_compute; reflexivity | lia | vm_compute; reflexivity
    | vm_compute; discriminate].
Defined.

(** Two delays in a row prepend the sum of the two counts, each product
    truncated on its own. *)
Theorem delays_compose (d1 d2 : F64.float) (audio : list R) (sr n1 n2 : Z) :
  F64.ltb F64.zero d1 = true -> F64.ltb F64.zero d2 = true -> (0 < sr)%Z ->
  Applier.int (F64.mul d1 (F64.of_int sr)) = Ok n1 ->
  Applier.int (F64.mul d2 (F64.of_int sr)) = Ok n2 ->
  bind_result (Applier.shift_samples d1 audio sr)
    (fun delayed => Applier.shift_samples d2 delayed sr)
  = Ok (repeat 0%R (Z.to_nat (n1 + n2)) ++ audio).
Proof.
  intros Hd1 Hd2 Hsr Hn1 Hn2.
  pose proof (count_nonneg d1 sr n1 Hd1 Hsr Hn1) as H1.
  pose proof (count_nonneg d2 sr n2 Hd2 Hsr Hn2) as H2.
  rewrite (shift_positive d1 audio sr n1) by assumption. cbn [bind_result].
  rewrite (shift_positive d2 _ sr n2) by assumption. f_equal.
  rewrite app_assoc, <- repeat_app. f_equal. f_equal. lia.
Qed.

(** At 22050 Hz, 0.02 s and then 0.12 s prepend 441 + 2646 = 3087 samples;
    one delay by their sum prepends 3086. *)
Lemma delays_compose_witness :
  bind_result (Applier.shift_samples (F64.of_Q (2 # 100)) [1%R] 22050)
    (fun delayed => Applier.shift_samples (F64.of_Q (12 # 100)) delayed 22050)
  = Ok (repeat 0%R (Z.to_nat (441 + 2646)) ++ [1%R])
  /\ Applier.int
       (F64.mul (F64.add (F64.of_Q (2 # 100)) (F64.of_Q (12 # 100)))
          (F64.of_int 22050))
     = Ok 3086%Z.
Proof.
  split; [|vm_compute; reflexivity].
  apply (delays_compose (F64.of_Q (2 # 100)) (F64.of_Q (12 # 100)) [1%R]
           22050 441 2646);
    [vm_compute; reflexivity | vm_compute; reflexivity | lia
    | vm_compute; reflexivity | vm_compute; reflexivity].
Defined.

End ApplierComposition.

(** ** AudioIngest *)

Section Ingest.
Local Open Scope R_scope.

Variable not_found : string.
Variable env : Analyze.Env.
Variable video_path : string.
Variable w : Analyze.World.

Ltac run_extract :=
  unfold Analyze.extract_video_audio_ffmpeg, Analyze.try_except, Analyze.bind,
    Analyze.create_scratch, Analyze.lift, Analyze.raise, Analyze.ret,
    Analyze.os_unlink;
  cbn [Analyze.scratch Analyze.signals fst snd].

(** The extraction when the tool ran and the file was read. *)
Lemma extract_success (tmp err : string) (rate : Z) (data : list Z) :
  Analyze.named_temporary_file env = Ok tmp ->
  Analyze.subprocess_run env (Analyze.extract_command video_path tmp)
  = Ok (0%Z, err) ->
  Analyze.wavfile_read env tmp = Ok (rate, data) ->
  Analyze.extract_video_audio_ffmpeg not_found env video_path w
  = (Ok (Analyze.to_float data, rate),
     Analyze.mkWorld
       (if Analyze.unlink_allowed env
        then remove tmp (tmp :: Analyze.scratch w)
        else tmp :: Analyze.scratch w)
       (Analyze.signals w)).
Proof.
  intros Htmp Hrun Hread. run_extract.
  rewrite Htmp. cbn [Analyze.scratch Analyze.signals fst snd].
  rewrite Hrun. cbn [Z.eqb negb].
  rewrite Hread. cbn [Analyze.scratch Analyze.signals fst snd existsb].
  rewrite String.eqb_refl. cbn [orb].
  destruct (Analyze.unlink_allowed env); reflexivity.
Qed.

(** The extraction when the tool ran and failed. *)
Lemma extract_tool_failure (tmp err : string) (rc : Z) :
  Analyze.named_temporary_file env = Ok tmp ->
  Analyze.subprocess_run env (Analyze.extract_command video_path tmp)
  = Ok (rc, err) ->
  rc <> 0%Z ->
  Analyze.extract_video_audio_ffmpeg not_found env video_path w
  = (Raise (Exception
              (String.append "Failed to extract video audio: "
                 (String.append "FFmpeg failed: " err))),
     Analyze.mkWorld (tmp :: Analyze.scratch w) (Analyze.signals w)).
Proof.
  intros Htmp Hrun Hrc. run_extract.
  rewrite Htmp. cbn [Analyze.scratch Analyze.signals fst snd].
  rewrite Hrun.
  destruct (Z.eqb_spec rc 0); [contradiction|]. reflexivity.
Qed.

(** The extraction emits nothing itself. *)
Lemma extract_signals :
  Analyze.signals
    (snd (Analyze.extract_video_audio_ffmpeg not_found env video_path w))
  = Analyze.signals w.
Proof.
  run_extract.
  destruct (Analyze.named_temporary_file env) as [tmp | e];
    [|destruct e; reflexivity].
  cbn [Analyze.scratch Analyze.signals fst snd].
  destruct (Analyze.subprocess_run env _) as [[rc err] | e];
    [|destruct e; reflexivity].
  destruct (negb (rc =? 0)%Z); [reflexivity|].
  destruct (Analyze.wavfile_read env tmp) as [[rate data] | e];
    [|destruct e; reflexivity].
  cbn [Analyze.scratch Analyze.signals fst snd existsb].
  rewrite String.eqb_refl. cbn [orb].
  destruct (Analyze.unlink_allowed env); reflexivity.
Qed.

End Ingest.

Section IngestClaims.
Local Open Scope R_scope.

(** When the tool succeeds, the extraction returns the samples of the
    scratch file divided by 32768, as many as were read and at the rate the
    file states; every one of them lies in [-1, 1). *)
Theorem extracted_samples_normalised (not_found : string) (env : Analyze.Env)
    (video_path : string) (w : Analyze.World) (tmp err : string) (rate : Z)
    (data : list Z) :
  Analyze.named_temporary_file env = Ok tmp ->
  Analyze.subprocess_run env (Analyze.extract_command video_path tmp)
  = Ok (0%Z, err) ->
  Analyze.wavfile_read env tmp = Ok (rate, data) ->
  Forall int16 data ->
  exists audio,
    fst (Analyze.extract_video_audio_ffmpeg not_found env video_path w)
    = Ok (audio, rate)
    /\ List.length audio = List.length data
    /\ Forall (fun x => -1 <= x < 1) audio
    /\ map (fun x => x * 32768) audio = map IZR data.
Proof.
  intros Htmp Hrun Hread Hdata.
  exists (Analyze.to_float data).
  rewrite (extract_success not_found env video_path w tmp err rate data)
    by assumption.
  split; [reflexivity|]. unfold Analyze.to_float.
  split; [apply length_map|]. split.
  - apply Forall_map. eapply Forall_impl; [|exact Hdata].
    intros x [Hlo Hhi]. apply IZR_le in Hlo.
    assert (Hlt : IZR x < 32768) by (apply IZR_lt; lia).
    unfold Rdiv. lra.
  - rewrite map_map. apply map_ext. intros x. field.
Qed.

Lemma extracted_samples_normalised_witness :
  exists audio,
    fst (Analyze.extract_video_audio_ffmpeg Analyze.pro_not_found good_ingest
           "clip.mp4" analyze_start)
    = Ok (audio, 22050%Z)
    /\ Forall (fun x => -1 <= x < 1) audio.
Proof.
  destruct (extracted_samples_normalised Analyze.pro_not_found good_ingest
              "clip.mp4" analyze_start "/tmp/tmpv1q7.wav" "" 22050
              [0; 16384; -32768]%Z) as (audio & Ha & _ & Hr & _);
    try reflexivity.
  - repeat constructor; unfold int16; lia.
  - exists audio. split; assumption.
Defined.

(** When the tool exits with a code other than zero, the extraction raises
    with the whole text of the tool's error stream in the message, after the
    two prefixes; and the scratch file it created stays behind. *)
Theorem extraction_tool_failure (not_found : string) (env : Analyze.Env)
    (video_path : string) (w : Analyze.World) (tmp err : string) (rc : Z) :
  Analyze.named_temporary_file env = Ok tmp ->
  Analyze.subprocess_run env (Analyze.extract_command video_path tmp)
  = Ok (rc, err) ->
  rc <> 0%Z ->
  let out := Analyze.extract_video_audio_ffmpeg not_found env video_path w in
  fst out
  = Raise (Exception
             (String.append "Failed to extract video audio: FFmpeg failed: "
                err))
  /\ Analyze.scratch (snd out) = tmp :: Analyze.scratch w.
Proof.
  intros Htmp Hrun Hrc out. subst out.
  rewrite (extract_tool_failure not_found env video_path w tmp err rc)
    by assumption.
  split; reflexivity.
Qed.

Lemma extraction_tool_failure_witness :
  fst (Analyze.extract_video_audio_ffmpeg Analyze.pro_not_found bad_video
         "clip.mp4" analyze_start)
  = Raise (Exception
             "Failed to extract video audio: FFmpeg failed: clip.mp4: Invalid data found when processing input")
  /\ Analyze.scratch
       (snd (Analyze.extract_video_audio_ffmpeg Analyze.pro_not_found
               bad_video "clip.mp4" analyze_start))
     = ["/tmp/tmpv1q7.wav"].
Proof.
  apply (extraction_tool_failure Analyze.pro_not_found bad_video "clip.mp4"
           analyze_start "/tmp/tmpv1q7.wav"
           "clip.mp4: Invalid data found when processing input" 1);
    [reflexivity | reflexivity | discriminate].
Defined.

(** A [FileNotFoundError] from any step of the extraction, be it the scratch
    file, the start of the tool or the reading of the scratch file, is
    reported as the tool not being installed; the text of the original
    exception is dropped. *)
Theorem file_not_found_means_no_tool (not_found : string) (env : Analyze.Env)
    (video_path : string) (w : Analyze.World) (m : string) :
  Analyze.named_temporary_file env = Raise (FileNotFoundError m)
  \/ (exists tmp,
        Analyze.named_temporary_file env = Ok tmp
        /\ Analyze.subprocess_run env (Analyze.extract_command video_path tmp)
           = Raise (FileNotFoundError m))
  \/ (exists tmp err,
        Analyze.named_temporary_file env = Ok tmp
        /\ Analyze.subprocess_run env (Analyze.extract_command video_path tmp)
           = Ok (0%Z, err)
        /\ Analyze.wavfile_read env tmp = Raise (FileNotFoundError m)) ->
  fst (Analyze.extract_video_audio_ffmpeg not_found env video_path w)
  = Raise (Exception not_found).
Proof.
  unfold Analyze.extract_video_audio_ffmpeg, Analyze.try_except, Analyze.bind,
    Analyze.create_scratch, Analyze.lift, Analyze.raise, Analyze.ret.
  intros [H | [(tmp & Htmp & H) | (tmp & err & Htmp & Hrun & H)]].
  - rewrite H. reflexivity.
  - rewrite Htmp. cbn [fst snd]. rewrite H. reflexivity.
  - rewrite Htmp. cbn [fst snd]. rewrite Hrun. cbn [Z.eqb negb].
    rewrite H. reflexivity.
Qed.

Lemma file_not_found_means_no_tool_witness :
  fst (Analyze.extract_video_audio_ffmpeg Analyze.v2_not_found no_tool
         "clip.mp4" analyze_start)
  = Raise (Exception
             "FFmpeg not found. Please install FFmpeg and add it to your PATH.").
Proof.
  apply (file_not_found_means_no_tool Analyze.v2_not_found no_tool "clip.mp4"
           analyze_start "[Errno 2] No such file or directory: 'ffmpeg'").
  right. left. exists "/tmp/tmpv1q7.wav". split; reflexivity.
Defined.

Lemma remove_gone (path : string) (files : list string) :
  existsb (String.eqb path) (remove path files) = false.
Proof.
  unfold remove. induction files as [|f fs IH]; [reflexivity|].
  cbn [filter]. destruct (String.eqb f path) eqn:E; cbn [negb]; [exact IH|].
  cbn [existsb]. rewrite IH, String.eqb_sym, E. reflexivity.
Qed.

(** After a successful extraction the scratch file is gone when the file
    system lets it go; when [os.unlink] fails the failure is swallowed and
    the samples are returned all the same. *)
Theorem extraction_cleanup (not_found : string) (env : Analyze.Env)
    (video_path : string) (w : Analyze.World) (tmp err : string) (rate : Z)
    (data : list Z) :
  Analyze.named_temporary_file env = Ok tmp ->
  Analyze.subprocess_run env (Analyze.extract_command video_path tmp)
  = Ok (0%Z, err) ->
  Analyze.wavfile_read env tmp = Ok (rate, data) ->
  let out := Analyze.extract_video_audio_ffmpeg not_found env video_path w in
  fst out = Ok (Analyze.to_float data, rate)
  /\ existsb (String.eqb tmp) (Analyze.scratch (snd out))
     = negb (Analyze.unlink_allowed env).
Proof.
  intros Htmp Hrun Hread out. subst out.
  rewrite (extract_success not_found env video_path w tmp err rate data)
    by assumption.
  split; [reflexivity|]. cbn [snd Analyze.scratch].
  destruct (Analyze.unlink_allowed env); cbn [negb].
  - apply remove_gone.
  - cbn [existsb]. rewrite String.eqb_refl. reflexivity.
Qed.

Lemma extraction_cleanup_witness :
  existsb (String.eqb "/tmp/tmpv1q7.wav")
    (Analyze.scratch
       (snd (Analyze.extract_video_audio_ffmpeg Analyze.pro_not_found
               good_ingest "clip.mp4" analyze_start)))
  = false.
Proof.
  destruct (extraction_cleanup Analyze.pro_not_found good_ingest "clip.mp4"
              analyze_start "/tmp/tmpv1q7.wav" "" 22050 [0; 16384; -32768]%Z)
    as [_ H]; [reflexivity | reflexivity | reflexivity | exact H].
Defined.

End IngestClaims.

(** ** The Analyze flow *)

Section AnalyzeFlow.
Local Open Scope R_scope.

Ltac run_analyze :=
  unfold Analyze.run, Analyze.load_audio_file, Analyze.try_except,
    Analyze.bind, Analyze.emit, Analyze.lift, Analyze.raise;
  cbn [Analyze.scratch Analyze.signals fst snd].

(** Every run of the analysis ends with exactly one closing signal, a result
    or an error, and it is the last one; before it come the progress signals
    10, 30, 50 and, only before a result, 100, in this order. *)
Theorem analyze_signals (not_found : string) (env : Analyze.Env)
    (video_path : string) (max_offset : Z) (w : Analyze.World) :
  let out :=
    Analyze.signals (Analyze.run not_found env video_path max_offset w) in
  (exists n msg,
     (1 <= n <= 3)%nat
     /\ out = Analyze.signals w
              ++ firstn n
                   [Analyze.Progress 10 "Extracting audio from video...";
                    Analyze.Progress 30 "Loading external audio file...";
                    Analyze.Progress 50
                      "Performing cross-correlation analysis..."]
              ++ [Analyze.Error msg])
  \/ (exists r,
        out = Analyze.signals w
              ++ [Analyze.Progress 10 "Extracting audio from video...";
                  Analyze.Progress 30 "Loading external audio file...";
                  Analyze.Progress 50
                    "Performing cross-correlation analysis...";
                  Analyze.Progress 100 "Synchronization complete!";
                  Analyze.Finished r]).
Proof.
  intros out. subst out. run_analyze.
  set (w1 := Analyze.mkWorld (Analyze.scratch w)
               (Analyze.signals w
                ++ [Analyze.Progress 10 "Extracting audio from video..."])).
  pose proof (extract_signals not_found env video_path w1) as Hsig.
  destruct (Analyze.extract_video_audio_ffmpeg not_found env video_path w1)
    as [[va | e] w2]; cbn [snd] in Hsig; cbn [Analyze.signals fst snd].
  2:{ left. exists 1%nat, (str_exn e). split; [lia|].
      rewrite Hsig. unfold w1; cbn [Analyze.signals firstn].
      rewrite <- app_assoc. reflexivity. }
  destruct (Analyze.librosa_load env) as [ea | e];
    cbn [Analyze.signals fst snd].
  2:{ left. exists 2%nat, (String.append "Failed to load audio file: " (str_exn e)).
      split; [lia|].
      rewrite Hsig. unfold w1; cbn [Analyze.signals firstn str_exn].
      rewrite <- !app_assoc. reflexivity. }
  destruct (cross_correlation_sync max_offset va ea) as [r | e];
    cbn [Analyze.signals fst snd].
  - right. exists r. rewrite Hsig. unfold w1; cbn [Analyze.signals].
    rewrite <- !app_assoc. reflexivity.
  - left. exists 3%nat, (str_exn e). split; [lia|].
    rewrite Hsig. unfold w1; cbn [Analyze.signals firstn].
    rewrite <- !app_assoc. reflexivity.
Qed.

(** Once both recordings are decoded, the analysis ends with a result exactly
    when neither of them is empty: the result is what the estimator returns
    for the extracted samples at the rate of the scratch file. With an empty
    recording it ends with an error after the third progress signal. *)
Theorem analyze_outcome (not_found : string) (env : Analyze.Env)
    (video_path : string) (max_offset : Z) (w : Analyze.World)
    (tmp err : string) (rate esr : Z) (data : list Z) (ext : list R) :
  Analyze.named_temporary_file env = Ok tmp ->
  Analyze.subprocess_run env (Analyze.extract_command video_path tmp)
  = Ok (0%Z, err) ->
  Analyze.wavfile_read env tmp = Ok (rate, data) ->
  Analyze.librosa_load env = Ok (ext, esr) ->
  (0 < rate)%Z -> (0 < esr)%Z -> (0 <= max_offset)%Z ->
  let out :=
    Analyze.signals (Analyze.run not_found env video_path max_offset w) in
  (data <> [] /\ ext <> [] ->
   exists r,
     cross_correlation_sync max_offset (Analyze.to_float data, rate) (ext, esr)
     = Ok r
     /\ sample_rate r = rate
     /\ out = Analyze.signals w
              ++ [Analyze.Progress 10 "Extracting audio from video...";
                  Analyze.Progress 30 "Loading external audio file...";
                  Analyze.Progress 50
                    "Performing cross-correlation analysis...";
                  Analyze.Progress 100 "Synchronization complete!";
                  Analyze.Finished r])
  /\ (data = [] \/ ext = [] ->
      exists msg,
        out = Analyze.signals w
              ++ [Analyze.Progress 10 "Extracting audio from video...";
                  Analyze.Progress 30 "Loading external audio file...";
                  Analyze.Progress 50
                    "Performing cross-correlation analysis...";
                  Analyze.Error msg]).
Proof.
  intros Htmp Hrun Hread Hload Hrate Hesr Hmo out. subst out.
  run_analyze.
  rewrite (extract_success not_found env video_path _ tmp err rate data)
    by assumption.
  cbn [Analyze.scratch Analyze.signals fst snd].
  rewrite Hload. cbn [Analyze.scratch Analyze.signals fst snd].
  split.
  - intros [Hd He].
    assert (Hv : Analyze.to_float data <> [])
      by (destruct data; [congruence | discriminate]).
    destruct (sync_returns max_offset (Analyze.to_float data) ext rate esr
                Hv He Hrate Hesr Hmo) as (k & _ & _ & Hr).
    exists (result_at max_offset (Analyze.to_float data, rate) (ext, esr) k).
    split; [exact Hr|]. split; [reflexivity|].
    rewrite Hr. cbn [Analyze.signals fst snd].
    rewrite <- !app_assoc. reflexivity.
  - intros Hempty.
    assert (Hfail : is_ok (cross_correlation_sync max_offset
                             (Analyze.to_float data, rate) (ext, esr)) = false).
    { apply sync_empty. cbn [fst].
      destruct Hempty as [-> | ->]; [left | right]; reflexivity. }
    destruct (cross_correlation_sync max_offset (Analyze.to_float data, rate)
                (ext, esr)) as [r | e]; [discriminate|].
    exists (str_exn e). cbn [Analyze.signals fst snd].
    rewrite <- !app_assoc. reflexivity.
Qed.

Lemma analyze_outcome_witness :
  exists r,
    cross_correlation_sync 60
      (Analyze.to_float [0; 16384; -32768]%Z, 22050%Z) ([1 / 2; 0], 22050%Z)
    = Ok r
    /\ Analyze.signals (Analyze.run Analyze.pro_not_found good_ingest
                          "clip.mp4" 60 analyze_start)
       = [Analyze.Progress 10 "Extracting audio from video...";
          Analyze.Progress 30 "Loading external audio file...";
          Analyze.Progress 50 "Performing cross-correlation analysis...";
          Analyze.Progress 100 "Synchronization complete!";
          Analyze.Finished r].
Proof.
  destruct (analyze_outcome Analyze.pro_not_found good_ingest "clip.mp4" 60
              analyze_start "/tmp/tmpv1q7.wav" "" 22050 22050
              [0; 16384; -32768]%Z [1 / 2; 0]) as [Hgood _];
    try reflexivity; try lia.
  destruct Hgood as (r & Hr & _ & Hout); [split; discriminate|].
  exists r. split; [exact Hr | exact Hout].
Defined.

End AnalyzeFlow.

(** ** The Export flow, over all its runs *)

Section ExportRuns.

Lemma count_lines_inside (s : string) :
  count_lines s true = S (count_lines (snd (readline s)) false).
Proof.
  induction s as [|c s IH]; [reflexivity|].
  cbn [count_lines readline].
  destruct (Ascii.eqb c "010"%char); [reflexivity|].
  rewrite IH. destruct (readline s); reflexivity.
Qed.

Lemma line_count_readline (s : string) :
  is_empty (fst (readline s)) = false ->
  line_count s = S (line_count (snd (readline s))).
Proof.
  unfold line_count. destruct s as [|c s]; [discriminate|]. intros _.
  cbn [count_lines readline].
  destruct (Ascii.eqb c "010"%char); [reflexivity|].
  rewrite count_lines_inside. destruct (readline s); reflexivity.
Qed.

(** What the monitoring loop returns. *)
Lemma monitor_result (encoding : Signal) (p : Process) (w : World) :
  monitor encoding p w =
  (mkProcess "" 0 (returncode p),
   mkWorld (scratch w)
     (signals w ++ repeat encoding (line_count (stderr p)))).
Proof.
  funelim (monitor encoding p w).
  - rewrite H. cbn [returncode scratch signals stderr].
    rewrite <- app_assoc. f_equal. f_equal. f_equal.
    pose proof (line_count_readline (stderr p)) as Hc.
    rewrite E in Hc. cbn [fst snd] in Hc. rewrite Hc by exact Eo.
    reflexivity.
  - assert (Hs : stderr p = "").
    { apply readline_eof. rewrite E. exact Eo. }
    pose proof E as E'. rewrite Hs in E'. simpl in E'.
    injection E' as _ <-. rewrite Hs. cbn [line_count count_lines repeat].
    rewrite app_nil_r. destruct w; reflexivity.
  - rewrite H. cbn [returncode scratch signals stderr].
    assert (Hs : stderr p = "").
    { apply readline_eof. rewrite E. exact Eo. }
    pose proof E as E'. rewrite Hs in E'. simpl in E'.
    injection E' as _ <-. rewrite Hs. reflexivity.
Qed.

(** For a tool that closes its error stream and exits, the monitoring loop
    over the text layer of the stream emits its progress signal once for
    each line the tool wrote, a line ending at a line feed, at a carriage
    return or at the two together, and a last line without an end counting
    too; this however long the tool takes to exit after closing the stream.
    The loop leaves the stream read to its end. *)
Theorem monitor_counts_lines (encoding : Signal) (p : Process) (w : World) :
  monitor encoding (text_mode p) w =
  (mkProcess "" 0 (returncode p),
   mkWorld (scratch w)
     (signals w
      ++ repeat encoding (line_count (universal_newlines (stderr p))))).
Proof. apply (monitor_result encoding (text_mode p) w). Qed.

Lemma remaining_stderr_empty (p : Process) : remaining_stderr p = "".
Proof.
  unfold remaining_stderr.
  destruct (monitor_spec (Progress 75 "Encoding video...") p (mkWorld [] []))
    as [n ->].
  reflexivity.
Qed.

(** [apply_offset_to_audio] changes nothing in the modelled world; it
    succeeds or raises with its own prefix. *)
Lemma apply_offset_result (env : Env) (self : Worker) (tmp : string)
    (w : World) :
  apply_offset_to_audio env self tmp w =
  (match offset_stage env self with
   | Ok u => Ok u
   | Raise e =>
       Raise (Exception (String.append "Failed to apply offset: " (str_exn e)))
   end, w).
Proof.
  unfold apply_offset_to_audio, offset_stage, try_except, bind, lift, raise.
  destruct (librosa_load env) as [[audio sr] | e]; [|reflexivity].
  cbn [bind_result].
  destruct (Applier.shift_samples (offset self) audio sr) as [shifted | e];
    [|reflexivity].
  cbn [bind_result].
  destruct (sf_write env shifted sr) as [u | e]; reflexivity.
Qed.

(** Every run of the flow, by the first collaborator that fails. *)
Lemma export_flow_cases (env : Env) (self : Worker)
    (plan : string -> list string) (merging encoding : Signal) (w : World) :
  export_flow env self plan merging encoding w =
  match named_temporary_file env with
  | Raise e =>
      mkWorld (scratch w)
        (signals w ++ [Progress 10 "Preparing files..."; Error (str_exn e)])
  | Ok tmp =>
      match offset_stage env self with
      | Raise e =>
          mkWorld (tmp :: scratch w)
            (signals w
             ++ [Progress 10 "Preparing files...";
                 Progress 30 "Applying audio offset...";
                 Error (String.append "Failed to apply offset: " (str_exn e))])
      | Ok _ =>
          match popen env (plan tmp) with
          | Raise e =>
              mkWorld (tmp :: scratch w)
                (signals w
                 ++ [Progress 10 "Preparing files...";
                     Progress 30 "Applying audio offset...";
                     merging; Error (str_exn e)])
          | Ok p =>
              mkWorld (after_unlink env w tmp)
                (signals w
                 ++ [Progress 10 "Preparing files...";
                     Progress 30 "Applying audio offset...";
                     merging]
                 ++ repeat encoding
                      (line_count (universal_newlines (stderr p)))
                 ++ (if (returncode p =? 0)%Z
                     then [Progress 100 "Export complete!";
                           Finished (output_path self)]
                     else [Error "FFmpeg encoding failed: "]))
          end
      end
  end.
Proof.
  unfold export_flow, try_except, bind, emit, create_scratch, lift, raise,
    ret, os_unlink, subprocess_Popen.
  cbn [scratch signals fst snd].
  destruct (named_temporary_file env) as [tmp | e].
  2:{ cbn [scratch signals fst snd]. rewrite <- app_assoc. reflexivity. }
  cbn [scratch signals fst snd].
  rewrite apply_offset_result.
  destruct (offset_stage env self) as [u | e].
  2:{ cbn [scratch signals fst snd str_exn]. rewrite <- !app_assoc.
      reflexivity. }
  cbn [scratch signals fst snd].
  destruct (popen env (plan tmp)) as [p | e]; cbn [bind_result].
  2:{ cbn [scratch signals fst snd]. rewrite <- !app_assoc. reflexivity. }
  rewrite monitor_result.
  cbn [scratch signals fst snd returncode stderr existsb text_mode].
  rewrite String.eqb_refl. cbn [orb]. unfold after_unlink.
  destruct (unlink_allowed env), (returncode p =? 0)%Z;
    cbn [negb scratch signals fst snd str_exn String.append];
    f_equal; rewrite <- ?app_assoc; reflexivity.
Qed.

Lemma percentages_app (l1 l2 : list Signal) :
  percentages (l1 ++ l2) = percentages l1 ++ percentages l2.
Proof.
  induction l1 as [|sg l1 IH]; [reflexivity|].
  destruct sg; cbn [app percentages]; rewrite IH; reflexivity.
Qed.

Lemma percentages_repeat (v : Z) (label : string) (n : nat) :
  percentages (repeat (Progress v label) n) = repeat v n.
Proof. induction n as [|n IH]; [reflexivity|]. simpl. now rewrite IH. Qed.

Lemma nondecreasing_repeat (a v : Z) (n : nat) (tail : list Z) :
  (a <= v)%Z -> nondecreasing (v :: tail) = true ->
  nondecreasing (a :: repeat v n ++ tail) = true.
Proof.
  revert a. induction n as [|n IH]; intros a Ha Ht.
  - cbn [repeat app]. destruct tail as [|y tail]; [reflexivity|].
    cbn [nondecreasing] in *. apply andb_prop in Ht. destruct Ht as [Hvy Ht].
    apply Z.leb_le in Hvy.
    apply andb_true_intro. split; [apply Z.leb_le; lia | exact Ht].
  - cbn [repeat app]. cbn [nondecreasing].
    apply andb_true_intro. split; [apply Z.leb_le; exact Ha|].
    apply IH; [lia | exact Ht].
Qed.

Lemma terminal_repeat (v : Z) (label : string) (n : nat) :
  existsb terminal (repeat (Progress v label) n) = false.
Proof. induction n as [|n IH]; [reflexivity | exact IH]. Qed.

(** The shape of the signals of a run whose two special progress signals lie
    between 30 and 100. *)
Lemma export_flow_closes (env : Env) (self : Worker)
    (plan : string -> list string) (m c : Z) (lm lc : string) :
  (30 <= m)%Z -> (m <= c)%Z -> (c <= 100)%Z ->
  let out :=
    signals (export_flow env self plan (Progress m lm) (Progress c lc) start) in
  exists before last,
    out = before ++ [last]
    /\ existsb terminal before = false
    /\ terminal last = true
    /\ nondecreasing (percentages out) = true.
Proof.
  intros Hm Hmc Hc out. subst out. rewrite export_flow_cases.
  unfold start; cbn [signals scratch app].
  destruct (named_temporary_file env) as [tmp | e].
  2:{ exists [Progress 10 "Preparing files..."], (Error (str_exn e)).
      repeat split. }
  destruct (offset_stage env self) as [u | e].
  2:{ eexists [_; _], (Error _). repeat split. }
  destruct (popen env (plan tmp)) as [p | e].
  2:{ eexists [_; _; _], (Error (str_exn e)). cbn [signals].
      split; [reflexivity|]. split; [reflexivity|]. split; [reflexivity|].
      cbn [percentages nondecreasing].
      rewrite !Bool.andb_true_r. apply andb_true_intro.
      split; [reflexivity | apply Z.leb_le; exact Hm]. }
  cbn [signals app].
  set (n := line_count (universal_newlines (stderr p))).
  destruct (returncode p =? 0)%Z.
  - exists ([Progress 10 "Preparing files...";
             Progress 30 "Applying audio offset..."; Progress m lm]
            ++ repeat (Progress c lc) n ++ [Progress 100 "Export complete!"]),
      (Finished (output_path self)).
    split; [rewrite <- !app_assoc; reflexivity|].
    split.
    { cbn [app existsb terminal orb]. rewrite existsb_app, terminal_repeat.
      reflexivity. }
    split; [reflexivity|].
    cbn [percentages]. rewrite percentages_app, percentages_repeat.
    cbn [percentages nondecreasing].
    apply andb_true_intro. split; [reflexivity|].
    apply andb_true_intro. split; [apply Z.leb_le; exact Hm|].
    apply nondecreasing_repeat; [exact Hmc|].
    cbn [nondecreasing]. rewrite Bool.andb_true_r. apply Z.leb_le. exact Hc.
  - exists ([Progress 10 "Preparing files...";
             Progress 30 "Applying audio offset..."; Progress m lm]
            ++ repeat (Progress c lc) n),
      (Error "FFmpeg encoding failed: ").
    split; [rewrite <- !app_assoc; reflexivity|].
    split.
    { cbn [app existsb terminal orb]. apply terminal_repeat. }
    split; [reflexivity|].
    cbn [percentages]. rewrite percentages_app, percentages_repeat.
    cbn [percentages nondecreasing].
    apply andb_true_intro. split; [reflexivity|].
    apply andb_true_intro. split; [apply Z.leb_le; exact Hm|].
    apply nondecreasing_repeat; [exact Hmc | reflexivity].
Qed.

(** Every run of the export, in either edition and whatever the
    collaborators answer, ends with exactly one closing signal, a completion
    or an error, and it is the last one; the percentages of the progress
    signals before it never go down. *)
Theorem export_run_closes (env : Env) (self : Worker) (s : ExportSettings) :
  (exists before last,
     signals (Pro.run env self s start) = before ++ [last]
     /\ existsb terminal before = false
     /\ terminal last = true
     /\ nondecreasing (percentages (signals (Pro.run env self s start))) = true)
  /\ (exists before last,
        signals (V2.run env self start) = before ++ [last]
        /\ existsb terminal before = false
        /\ terminal last = true
        /\ nondecreasing (percentages (signals (V2.run env self start))) = true).
Proof.
  split.
  - apply (export_flow_closes env self _ 50 75); lia.
  - apply (export_flow_closes env self _ 60 80); lia.
Qed.

(** When the tool exits with a code other than zero, the one error message
    of the run is the bare text [FFmpeg encoding failed: ], whatever the tool
    wrote: the monitoring loop has read the error stream to its end, one
    progress signal per line (ended by a line feed, a carriage return or
    both), before the message is built. *)
Theorem encode_failure_loses_diagnostics (env : Env) (self : Worker)
    (plan : string -> list string) (merging encoding : Signal) (w : World)
    (tmp : string) (p : Process) :
  named_temporary_file env = Ok tmp ->
  offset_stage env self = Ok tt ->
  popen env (plan tmp) = Ok p ->
  returncode p <> 0%Z ->
  signals (export_flow env self plan merging encoding w) =
  signals w
  ++ [Progress 10 "Preparing files...";
      Progress 30 "Applying audio offset...";
      merging]
  ++ repeat encoding (line_count (universal_newlines (stderr p)))
  ++ [Error "FFmpeg encoding failed: "].
Proof.
  intros Htmp Hstage Hpopen Hrc.
  rewrite export_flow_cases, Htmp, Hstage, Hpopen. cbn [signals].
  destruct (Z.eqb_spec (returncode p) 0); [contradiction | reflexivity].
Qed.

Lemma encode_failure_loses_diagnostics_witness :
  signals (Pro.run failing_encode a_worker default_settings start) =
  signals start
  ++ [Progress 10 "Preparing files...";
      Progress 30 "Applying audio offset...";
      Progress 50 "Encoding video (this may take a while)..."]
  ++ repeat (Progress 75 "Encoding video...") 2
  ++ [Error "FFmpeg encoding failed: "].
Proof.
  unfold Pro.run.
  apply (encode_failure_loses_diagnostics failing_encode a_worker _ _ _ start
           "/tmp/tmpk3x9.wav" failing_tool);
    [reflexivity | reflexivity | reflexivity | discriminate].
Defined.

(** When loading, shifting or writing the audio fails, the run ends after
    its second progress signal with an error that carries the text of the
    exception behind the prefix [Failed to apply offset: ]; the tool is not
    started and the scratch file stays. *)
Theorem offset_failure_report (env : Env) (self : Worker)
    (plan : string -> list string) (merging encoding : Signal) (w : World)
    (tmp : string) (e : exn) :
  named_temporary_file env = Ok tmp ->
  offset_stage env self = Raise e ->
  export_flow env self plan merging encoding w =
  mkWorld (tmp :: scratch w)
    (signals w
     ++ [Progress 10 "Preparing files...";
         Progress 30 "Applying audio offset...";
         Error (String.append "Failed to apply offset: " (str_exn e))]).
Proof.
  intros Htmp Hstage. rewrite export_flow_cases, Htmp, Hstage. reflexivity.
Qed.

Lemma offset_failure_report_witness :
  V2.run failing_load a_worker start =
  mkWorld ["/tmp/tmpk3x9.wav"]
    [Progress 10 "Preparing files...";
     Progress 30 "Applying audio offset...";
     Error "Failed to apply offset: Format not recognised."].
Proof.
  unfold V2.run.
  apply (offset_failure_report failing_load a_worker _ _ _ start
           "/tmp/tmpk3x9.wav" (Exception "Format not recognised."));
    reflexivity.
Defined.

(** When the tool exits with code zero the run ends with progress 100 and
    the completion signal carrying the worker's output path, after one
    progress signal for each line of the tool's error stream, carriage
    returns ending lines as line feeds do. A scratch file
    that cannot be removed does not change this: the failure of [os.unlink]
    is swallowed, and the file is there afterwards exactly in that case. *)
Theorem export_success (env : Env) (self : Worker)
    (plan : string -> list string) (merging encoding : Signal) (w : World)
    (tmp : string) (p : Process) :
  named_temporary_file env = Ok tmp ->
  offset_stage env self = Ok tt ->
  popen env (plan tmp) = Ok p ->
  returncode p = 0%Z ->
  let out := export_flow env self plan merging encoding w in
  signals out =
  signals w
  ++ [Progress 10 "Preparing files...";
      Progress 30 "Applying audio offset...";
      merging]
  ++ repeat encoding (line_count (universal_newlines (stderr p)))
  ++ [Progress 100 "Export complete!"; Finished (output_path self)]
  /\ existsb (String.eqb tmp) (scratch out) = negb (unlink_allowed env).
Proof.
  intros Htmp Hstage Hpopen Hrc out. subst out.
  rewrite export_flow_cases, Htmp, Hstage, Hpopen, Hrc.
  cbn [signals scratch Z.eqb]. split; [reflexivity|].
  unfold after_unlink. destruct (unlink_allowed env); cbn [negb].
  - apply remove_gone.
  - cbn [existsb]. rewrite String.eqb_refl. reflexivity.
Qed.

Lemma export_success_witness :
  signals (Pro.run good_export a_worker default_settings start) =
  [Progress 10 "Preparing files...";
   Progress 30 "Applying audio offset...";
   Progress 50 "Encoding video (this may take a while)...";
   Progress 75 "Encoding video...";
   Progress 75 "Encoding video...";
   Progress 75 "Encoding video...";
   Progress 100 "Export complete!";
   Finished "clip_synced.mp4"]
  /\ existsb (String.eqb "/tmp/tmpk3x9.wav")
       (scratch (Pro.run good_export a_worker default_settings start))
     = true.
Proof.
  unfold Pro.run.
  apply (export_success good_export a_worker _ _ _ start "/tmp/tmpk3x9.wav"
           progress_tool);
    [reflexivity | vm_compute; reflexivity | reflexivity | reflexivity].
Defined.

End ExportRuns.

(** ** The planned command, beyond the video codec *)

Section PlannerMore.

Ltac cmd_eval' :=
  cbn [Pro.build_ffmpeg_command V2.build_command app Py.join String.concat
       has_opt has_key has_scale_filter has_flag existsb video_stream_copy
       String.append];
  repeat first
    [ rewrite String.eqb_refl
    | rewrite Bool.andb_false_r
    | rewrite Bool.orb_true_r
    | rewrite Bool.orb_false_r
    | progress cbn [String.eqb Ascii.eqb Bool.eqb andb orb negb implb
                    Py.startswith] ].

(** In every planned command of either edition the video file is input 0
    and the scratch audio is input 1, and the command ends with [-y] and the
    output path. The video always comes from input 0. In Replace mode the
    audio is mapped from input 1 and [-shortest] is given; in Mix mode input
    1 is not mapped, its audio arrives through the filter graph only. *)
Theorem stream_mapping (v a o : string) (m : bool) (s : ExportSettings) :
  let pro := Pro.build_ffmpeg_command v a o m s in
  let v2 := V2.build_command v a o m in
  firstn 5 pro = ["ffmpeg"; "-i"; v; "-i"; a]
  /\ firstn 5 v2 = ["ffmpeg"; "-i"; v; "-i"; a]
  /\ skipn (List.length pro - 2) pro = ["-y"; o]
  /\ skipn (List.length v2 - 2) v2 = ["-y"; o]
  /\ has_opt "-map" "0:v:0" pro = true
  /\ has_opt "-map" "0:v:0" v2 = true
  /\ has_opt "-map" "1:a:0" pro = m
  /\ has_opt "-map" "1:a:0" v2 = m
  /\ has_opt "-filter_complex" audio_filter pro = negb m
  /\ has_opt "-filter_complex" audio_filter v2 = negb m
  /\ implb m (has_flag "-shortest" pro) = true
  /\ implb m (has_flag "-shortest" v2) = true.
Proof.
  intros pro v2. subst pro v2. unfold Pro.build_ffmpeg_command.
  destruct m, (String.eqb (resolution s) "original").
  all: split; [reflexivity|].
  all: split; [reflexivity|].
  all: split; [reflexivity|].
  all: split; [reflexivity|].
  all: repeat split; cmd_eval'; reflexivity.
Qed.

(** In Mix mode of the pro edition a scale filter is given exactly when the
    resolution is not [original]; the filter graph and the profile's video
    codec are passed with it. *)
Theorem mix_scaling (v a o : string) (s : ExportSettings) :
  let cmd := Pro.build_ffmpeg_command v a o false s in
  has_scale_filter cmd = negb (String.eqb (resolution s) "original")
  /\ (if String.eqb (resolution s) "original" then True
      else has_opt "-vf" (String.append "scale=" (resolution s)) cmd = true)
  /\ has_opt "-filter_complex" audio_filter cmd = true
  /\ has_opt "-c:v" (video_codec s) cmd = true.
Proof.
  intros cmd. subst cmd. unfold Pro.build_ffmpeg_command.
  destruct (String.eqb (resolution s) "original");
    repeat split; cmd_eval'; reflexivity.
Qed.

(** The quality settings of the profile, constant rate factor (in decimal),
    preset and video bitrate, are passed in both modes and at every
    resolution. *)
Theorem quality_options (v a o : string) (m : bool) (s : ExportSettings) :
  let cmd := Pro.build_ffmpeg_command v a o m s in
  has_opt "-crf" (Py.str (crf s)) cmd = true
  /\ has_opt "-preset" (preset s) cmd = true
  /\ has_opt "-b:v" (video_bitrate s) cmd = true.
Proof.
  intros cmd. subst cmd. unfold Pro.build_ffmpeg_command.
  destruct m, (String.eqb (resolution s) "original");
    repeat split; cmd_eval'; reflexivity.
Qed.

End PlannerMore.

(** ** The window *)

Section WindowFacts.
Import Window.

Lemma truthy_some (p : string) : is_empty p = false -> truthy (Some p) = true.
Proof. intros H. unfold truthy. rewrite H. reflexivity. Qed.

Lemma select_video_chosen (p : string) (st : State) :
  files_chosen st = true -> files_chosen (select_video p st) = true.
Proof.
  unfold select_video, check_ready_to_sync, files_chosen. intros H.
  apply andb_prop in H. destruct H as [Hv Ha].
  destruct (is_empty p) eqn:E; cbn [negb].
  - rewrite Hv, Ha. reflexivity.
  - cbn [video_path audio_path]. rewrite (truthy_some p E), Ha.
    cbn [andb video_path audio_path]. rewrite (truthy_some p E), Ha.
    reflexivity.
Qed.

Lemma select_audio_chosen (p : string) (st : State) :
  files_chosen st = true -> files_chosen (select_audio p st) = true.
Proof.
  unfold select_audio, check_ready_to_sync, files_chosen. intros H.
  apply andb_prop in H. destruct H as [Hv Ha].
  destruct (is_empty p) eqn:E; cbn [negb].
  - rewrite Hv, Ha. reflexivity.
  - cbn [video_path audio_path]. rewrite (truthy_some p E), Hv.
    cbn [andb video_path audio_path]. rewrite (truthy_some p E), Hv.
    reflexivity.
Qed.

Lemma window_invariant (st : State) : reachable st -> window_ok st.
Proof.
  induction 1 as [|st st' Hreach IH Hstep].
  - unfold window_ok, init; cbn. repeat split; (discriminate || lia).
  - destruct IH as (Hs & He & Ha & Hx).
    destruct Hstep as [p st | p st | st Hbtn | r st Hrun | st Hrun
                      | p st Hbtn | st Hrun].
    + (* select_video *)
      assert (Hkeep : files_chosen st = true ->
                      files_chosen (select_video p st) = true)
        by apply select_video_chosen.
      unfold window_ok.
      assert (Hsame : sync_result (select_video p st) = sync_result st
                      /\ export_btn (select_video p st) = export_btn st
                      /\ analyzing (select_video p st) = analyzing st
                      /\ exporting (select_video p st) = exporting st
                      /\ (sync_btn (select_video p st) = true ->
                          files_chosen (select_video p st) = true)).
      { unfold select_video, check_ready_to_sync, files_chosen.
        destruct (is_empty p); cbn [negb video_path audio_path].
        - repeat split. exact Hs.
        - destruct (truthy (Some p) && truthy (audio_path st)) eqn:E;
            cbn [sync_result export_btn analyzing exporting sync_btn
                 video_path audio_path]; repeat split;
            try (intros; assumption); discriminate. }
      destruct Hsame as (E1 & E2 & E3 & E4 & E5).
      rewrite E1, E2, E3, E4.
      split; [exact E5|]. split; [|split].
      * intros Hq. destruct (He Hq). split; auto.
      * intros Hq. auto.
      * intros Hq. destruct (Hx Hq). split; auto.
    + (* select_audio *)
      assert (Hkeep : files_chosen st = true ->
                      files_chosen (select_audio p st) = true)
        by apply select_audio_chosen.
      unfold window_ok.
      assert (Hsame : sync_result (select_audio p st) = sync_result st
                      /\ export_btn (select_audio p st) = export_btn st
                      /\ analyzing (select_audio p st) = analyzing st
                      /\ exporting (select_audio p st) = exporting st
                      /\ (sync_btn (select_audio p st) = true ->
                          files_chosen (select_audio p st) = true)).
      { unfold select_audio, check_ready_to_sync, files_chosen.
        destruct (is_empty p); cbn [negb video_path audio_path].
        - repeat split. exact Hs.
        - destruct (truthy (video_path st) && truthy (Some p)) eqn:E;
            cbn [sync_result export_btn analyzing exporting sync_btn
                 video_path audio_path]; repeat split;
            try (intros; assumption); discriminate. }
      destruct Hsame as (E1 & E2 & E3 & E4 & E5).
      rewrite E1, E2, E3, E4.
      split; [exact E5|]. split; [|split].
      * intros Hq. destruct (He Hq). split; auto.
      * intros Hq. auto.
      * intros Hq. destruct (Hx Hq). split; auto.
    + (* analyze_sync *)
      unfold window_ok, analyze_sync, files_chosen in *;
        cbn [sync_btn export_btn analyzing exporting video_path audio_path
             sync_result].
      split; [discriminate|]. split; [discriminate|].
      split; [intros _; exact (Hs Hbtn) | exact Hx].
    + (* sync_complete *)
      specialize (Ha Hrun).
      unfold window_ok, sync_complete, files_chosen in *;
        cbn [sync_btn export_btn analyzing exporting video_path audio_path
             sync_result].
      split; [intros _; exact Ha|].
      split; [intros _; split; [exact Ha | discriminate]|].
      split; [intros _; exact Ha|].
      intros Hq. split; [exact Ha | discriminate].
    + (* sync_error *)
      specialize (Ha Hrun).
      unfold window_ok, sync_error, files_chosen in *;
        cbn [sync_btn export_btn analyzing exporting video_path audio_path
             sync_result].
      split; [intros _; exact Ha|]. split; [exact He|].
      split; [intros _; exact Ha | exact Hx].
    + (* export_video *)
      pose proof (He Hbtn) as Hcr.
      unfold window_ok, export_video, files_chosen in *.
      destruct (is_empty p);
        cbn [sync_btn export_btn analyzing exporting video_path audio_path
             sync_result].
      * split; [exact Hs|]. split; [exact He|]. split; [exact Ha | exact Hx].
      * split; [discriminate|]. split; [discriminate|].
        split; [exact Ha | intros _; exact Hcr].
    + (* export_done *)
      pose proof (Hx Hrun) as Hcr.
      unfold window_ok, export_done, files_chosen in *;
        cbn [sync_btn export_btn analyzing exporting video_path audio_path
             sync_result].
      split; [intros _; exact (proj1 Hcr)|]. split; [intros _; exact Hcr|].
      split; [exact Ha | intros _; exact Hcr].
Qed.

Lemma busy_reachable : reachable busy.
Proof.
  unfold busy.
  eapply reachable_step; [|apply step_analyze; reflexivity].
  eapply reachable_step; [|apply step_select_audio].
  eapply reachable_step; [|apply step_select_video].
  apply reachable_init.
Qed.

(** However the window is used, the Analyze button is enabled and an
    analysis runs only with both files chosen, and the Export button is
    enabled and an export runs only with both files chosen and after some
    analysis has returned a result. *)
Theorem workers_have_their_inputs (st : State) :
  reachable st -> window_ok st.
Proof. apply window_invariant. Qed.

Lemma workers_have_their_inputs_witness : window_ok busy.
Proof. apply workers_have_their_inputs. exact busy_reachable. Defined.

(** The two flows are not kept apart: while an analysis runs, choosing a
    video file turns the Analyze button back on, and a click on it starts a
    second analysis beside the first. *)
Theorem analysis_not_exclusive (st : State) (p : string) :
  reachable st ->
  (0 < analyzing st)%nat ->
  is_empty p = false ->
  sync_btn (select_video p st) = true
  /\ reachable (analyze_sync (select_video p st))
  /\ analyzing (analyze_sync (select_video p st)) = S (analyzing st).
Proof.
  intros Hreach Hrun Hp.
  destruct (window_invariant st Hreach) as (_ & _ & Ha & _).
  specialize (Ha Hrun). unfold files_chosen in Ha.
  apply andb_prop in Ha. destruct Ha as [_ Haudio].
  assert (Hbtn : sync_btn (select_video p st) = true).
  { unfold select_video, check_ready_to_sync. rewrite Hp. cbn [negb].
    cbn [video_path audio_path]. rewrite (truthy_some p Hp), Haudio.
    reflexivity. }
  assert (Hcount : analyzing (select_video p st) = analyzing st).
  { unfold select_video, check_ready_to_sync. rewrite Hp. cbn [negb].
    cbn [video_path audio_path]. rewrite (truthy_some p Hp), Haudio.
    reflexivity. }
  split; [exact Hbtn|]. split.
  - eapply reachable_step; [|apply step_analyze; exact Hbtn].
    eapply reachable_step; [exact Hreach | apply step_select_video].
  - unfold analyze_sync; cbn [analyzing]. rewrite Hcount. reflexivity.
Qed.

Lemma analysis_not_exclusive_witness :
  reachable (analyze_sync (select_video "other.mp4" busy))
  /\ analyzing (analyze_sync (select_video "other.mp4" busy)) = 2%nat.
Proof.
  destruct (analysis_not_exclusive busy "other.mp4" busy_reachable)
    as (_ & Hr & Hn); [cbn; lia | reflexivity |].
  split; [exact Hr | exact Hn].
Defined.

End WindowFacts.

Section WindowText.
Local Open Scope R_scope.

(** The line of the result text depends on which recording is the longer
    one: "BEFORE the video" can only be shown when the audio of the video is
    strictly shorter than the external audio, "INTO the video" only when it
    is not, and "already aligned" is shown exactly when the peak is at
    lag 0. *)
Theorem interpretation_follows_lengths (max_offset : Z) (vid ext : list R)
    (vsr esr : Z) (r : SyncResult) :
  (0 < vsr)%Z -> (0 < esr)%Z ->
  cross_correlation_sync max_offset (vid, vsr) (ext, esr) = Ok r ->
  exists k,
    Np.argmax (correlation_of max_offset (vid, vsr) (ext, esr)) = Ok k
    /\ (Window.interpretation r = Window.Aligned <-> k = 0%nat)
    /\ (Window.interpretation r = Window.Into ->
        (List.length ext <= List.length vid)%nat)
    /\ (Window.interpretation r = Window.Before ->
        (List.length vid < List.length ext)%nat).
Proof.
  intros Hvsr Hesr Hr.
  destruct (sync_result _ _ _ _ Hr) as (k & Hk & ->).
  exists k. split; [exact Hk|].
  assert (Hvi : 0 < / IZR vsr) by (apply Rinv_0_lt_compat, IZR_lt; exact Hvsr).
  assert (Hei : 0 < / IZR esr) by (apply Rinv_0_lt_compat, IZR_lt; exact Hesr).
  assert (Hk0 : 0 <= INR k) by apply pos_INR.
  assert (Hkpos : k <> 0%nat -> 0 < INR k)
    by (intros Hne; apply lt_0_INR; lia).
  unfold Window.interpretation, result_at; cbn [offset_seconds snd].
  rewrite reverse_of_lengths.
  destruct (Nat.ltb_spec (List.length vid) (List.length ext)) as [Hlt | Hge];
    cbn [negb]; unfold Rdiv.
  - destruct (Rlt_dec 0 (- INR k * / IZR esr)) as [Hp | Hp].
    { exfalso. assert (0 <= INR k * / IZR esr) by (apply Rmult_le_pos; lra).
      lra. }
    destruct (Rlt_dec (- INR k * / IZR esr) 0) as [Hn | Hn].
    + split; [|split; [discriminate | intros _; exact Hlt]].
      split; [discriminate|]. intros ->. cbn [INR] in Hn. lra.
    + split; [|split; [discriminate | discriminate]].
      split; [|reflexivity]. intros _.
      destruct (Nat.eq_dec k 0) as [|Hne]; [assumption|].
      exfalso. apply Hn. specialize (Hkpos Hne).
      assert (0 < INR k * / IZR esr) by (apply Rmult_lt_0_compat; lra). lra.
  - destruct (Rlt_dec 0 (INR k * / IZR vsr)) as [Hp | Hp].
    + split; [|split; [intros _; exact Hge | discriminate]].
      split; [discriminate|]. intros ->. cbn [INR] in Hp. lra.
    + destruct (Rlt_dec (INR k * / IZR vsr) 0) as [Hn | Hn].
      { exfalso. assert (0 <= INR k * / IZR vsr) by (apply Rmult_le_pos; lra).
        lra. }
      split; [|split; [discriminate | discriminate]].
      split; [|reflexivity]. intros _.
      destruct (Nat.eq_dec k 0) as [|Hne]; [assumption|].
      exfalso. apply Hp. specialize (Hkpos Hne).
      apply Rmult_lt_0_compat; lra.
Qed.

Lemma interpretation_follows_lengths_witness :
  exists r,
    cross_correlation_sync 60 ([0; 3; 1], 22050%Z) ([3; 1], 22050%Z) = Ok r
    /\ Window.interpretation r <> Window.Before.
Proof.
  destruct (sync_returns 60 [0; 3; 1] [3; 1] 22050 22050) as (k0 & _ & _ & E);
    try discriminate; try lia.
  destruct (interpretation_follows_lengths 60 [0; 3; 1] [3; 1] 22050 22050 _
              eq_refl eq_refl E) as (k & _ & _ & _ & Hb).
  eexists. split; [exact E|].
  intros H. specialize (Hb H). simpl in Hb. lia.
Defined.

End WindowText.
